(** * LC-3 virtual machine (Go): a shallow embedding and its verification

    The development follows the most complete revision of the emulator
    (the file with the trap routines and the image loader).  The program is
    one Go package whose state lives in two package-level variables,
    [memory] (a slice of 65,536 [uint16]) and [reg] (an array of
    [R_COUNT = 10] [uint16]); everything else is the body of [main].

    Conventions of the embedding:
    - a [uint16] is a [Z]; every operation that can leave the range
      [0, 2^16) has its wrap-around written out ([wrap16]);
    - slices and arrays are lists read with stdpp's [!!] and written with
      [<[ i := v ]>]; Go panics on an index out of range, which the model
      renders as the fault [IndexOutOfRange];
    - Go panics on a negative shift count: fault [NegativeShift];
    - [panic], [log.Fatal] and [os.Exit] end the run: faults [Panic],
      [LogFatal] and [Exit];
    - the two unbounded [for] loops of the string traps take fuel, and a
      run that exhausts it ends in [OutOfFuel];
    - the operating system (standard input, the file system) is not code of
      the repository: it is the interface [Host]. *)

From Stdlib Require Import ZArith Lia Bool List String Ascii.
From Stdlib Require Import Strings.Byte.
From stdpp Require Import base list.

Open Scope Z_scope.

(** ** Constants *)

Definition MEMORY_MAX : Z := Z.shiftl 1 16.

Definition R_R0 : Z := 0.
Definition R_R7 : Z := 7.
Definition R_PC : Z := 8.
Definition R_COND : Z := 9.
Definition R_COUNT : Z := 10.

Definition OP_BR : Z := 0.
Definition OP_ADD : Z := 1.
Definition OP_LD : Z := 2.
Definition OP_ST : Z := 3.
Definition OP_JSR : Z := 4.
Definition OP_AND : Z := 5.
Definition OP_LDR : Z := 6.
Definition OP_STR : Z := 7.
Definition OP_RTI : Z := 8.
Definition OP_NOT : Z := 9.
Definition OP_LDI : Z := 10.
Definition OP_STI : Z := 11.
Definition OP_JMP : Z := 12.
Definition OP_RES : Z := 13.
Definition OP_LEA : Z := 14.
Definition OP_TRAP : Z := 15.

Definition FL_POS : Z := Z.shiftl 1 0.
Definition FL_ZRO : Z := Z.shiftl 1 1.
Definition FL_NEG : Z := Z.shiftl 1 2.

Definition TRAP_GETC : Z := 0x20.
Definition TRAP_OUT : Z := 0x21.
Definition TRAP_PUTS : Z := 0x22.
Definition TRAP_IN : Z := 0x23.
Definition TRAP_PUTSP : Z := 0x24.
Definition TRAP_HALT : Z := 0x25.

Definition MR_KBSR : Z := 0xFE00.
Definition MR_KBDR : Z := 0xFE02.

Definition MaxUint16 : Z := 65535.

(** ** 16-bit words *)

Definition wrap16 (z : Z) : Z := z mod 65536.

(** [a + b] on [uint16]. *)
Definition add16 (a b : Z) : Z := wrap16 (a + b).

(** [^a] on [uint16]. *)
Definition not16 (a : Z) : Z := wrap16 (Z.lnot a).

(** [a << n] and [a >> n] on [uint16] with a run-time shift count of type
    [int]; [None] is Go's panic on a negative count. *)
Definition shl16 (a n : Z) : option Z :=
  if n <? 0 then None else Some (wrap16 (Z.shiftl a n)).

Definition shr16 (a n : Z) : option Z :=
  if n <? 0 then None else Some (Z.shiftr a n).

(** A value of Go type [uint16]. *)
Definition word (z : Z) : Prop := 0 <= z < 65536.

(** [uint16(b)] for a [byte]. *)
Definition Z_of_byte (b : byte) : Z := Z.of_N (Byte.to_N b).

(** ** Bit utilities *)

(** [signExtend]: the untyped constants [1] and [0xFFFF] take the type of
    [x], so both shifts are [uint16] shifts and the subtraction wraps. *)
Definition signExtend (x : Z) (bitCount : Z) : option Z :=
  match shl16 1 bitCount with
  | None => None
  | Some p =>
      let x := Z.land x (wrap16 (p - 1)) in
      match shr16 x (bitCount - 1) with
      | None => None
      | Some s =>
          if negb (Z.land s 1 =? 0) then
            match shl16 0xFFFF bitCount with
            | None => None
            | Some hi => Some (Z.lor x hi)
            end
          else Some x
      end
  end.

(** [signExtend] as a function of the masked input [m], for [n >= 1]. *)
Definition sext_of (m n : Z) : Z :=
  if negb (Z.land (Z.shiftr m (n - 1)) 1 =? 0)
  then Z.lor m (wrap16 (Z.shiftl 0xFFFF n))
  else m.

(** The two's-complement value of the low [n] bits of [x], as an integer. *)
Definition signed_value (n x : Z) : Z :=
  let lo := x mod 2 ^ n in
  if lo <? 2 ^ (n - 1) then lo else lo - 2 ^ n.

(** The flag that classifies a word: zero, high bit set, or neither. *)
Definition flag_of (v : Z) : Z :=
  if v =? 0 then FL_ZRO else if Z.testbit v 15 then FL_NEG else FL_POS.

(** ** Output encoding

    [fmt.Printf("%c", rune(c))] writes the UTF-8 encoding of the code point;
    a surrogate is replaced by U+FFFD.  The argument is always a widened
    [uint16], so four-byte encodings do not arise. *)
Definition utf8_encode (r : Z) : list Z :=
  if r <=? 0x7F then [r]
  else if r <=? 0x7FF then
    [Z.lor 0xC0 (Z.shiftr r 6); Z.lor 0x80 (Z.land r 0x3F)]
  else if (0xD800 <=? r) && (r <=? 0xDFFF) then [0xEF; 0xBF; 0xBD]
  else
    [Z.lor 0xE0 (Z.shiftr r 12);
     Z.lor 0x80 (Z.land (Z.shiftr r 6) 0x3F);
     Z.lor 0x80 (Z.land r 0x3F)].

Definition bytes_of_string (s : string) : list Z :=
  map Z_of_byte (list_byte_of_string s).

(** ** The host *)

(** What the program asks of the operating system.  Every read of standard
    input goes through a fresh [bufio.NewReader(os.Stdin)]; the three
    methods are the three calls the program makes on such a reader, each
    returning its result ([None] for a non-nil error) and the input that
    remains.  [os_Open] is the content of a file that can be opened and
    read, [None] otherwise. *)
Class Host (H : Type) := {
  stdin_Peek1 : H -> option byte * H;
  stdin_ReadByte : H -> option byte * H;
  stdin_ReadRune : H -> option Z * H;
  os_Open : H -> string -> option (list byte)
}.

(** A scripted host for running the model: standard input is a queue of
    ASCII bytes, the file system an association list. *)
Record Script := {
  script_input : list byte;
  script_files : list (string * list byte)
}.

Fixpoint assoc_file (fs : list (string * list byte)) (path : string)
  : option (list byte) :=
  match fs with
  | [] => None
  | (p, c) :: fs' => if String.eqb p path then Some c else assoc_file fs' path
  end.

#[export] Instance Script_Host : Host Script := {
  stdin_Peek1 s :=
    match script_input s with
    | [] => (None, s)
    | b :: _ => (Some b, s)
    end;
  stdin_ReadByte s :=
    match script_input s with
    | [] => (None, s)
    | b :: rest =>
        (Some b, {| script_input := rest; script_files := script_files s |})
    end;
  stdin_ReadRune s :=
    match script_input s with
    | [] => (None, s)
    | b :: rest =>
        (Some (Z_of_byte b),
         {| script_input := rest; script_files := script_files s |})
    end;
  os_Open s path := assoc_file (script_files s) path
}.

(** ** Machine state and the monad of the program *)

Inductive Fault : Type :=
| IndexOutOfRange
| NegativeShift
| Panic (msg : string)
| LogFatal (msg : string)
| Exit (code : Z)
| OutOfFuel.

Section Machine.

Context {H : Type} `{HostOps : Host H}.

(** [memory] and [reg] are the package-level variables; [running] is the
    loop variable of [main]; [host] is the operating system; [stdout] is
    every byte written to standard output so far (oldest first);
    [opened] records the paths handed to [os.Open], oldest first. *)
Record Machine : Type := {
  memory : list Z;
  reg : list Z;
  running : bool;
  host : H;
  stdout : list Z;
  opened : list string
}.

Definition with_memory (v : list Z) (m : Machine) : Machine :=
  {| memory := v; reg := reg m; running := running m; host := host m;
     stdout := stdout m; opened := opened m |}.

Definition with_reg (v : list Z) (m : Machine) : Machine :=
  {| memory := memory m; reg := v; running := running m; host := host m;
     stdout := stdout m; opened := opened m |}.

Definition with_running (v : bool) (m : Machine) : Machine :=
  {| memory := memory m; reg := reg m; running := v; host := host m;
     stdout := stdout m; opened := opened m |}.

Definition with_host (v : H) (m : Machine) : Machine :=
  {| memory := memory m; reg := reg m; running := running m; host := v;
     stdout := stdout m; opened := opened m |}.

Definition with_stdout (v : list Z) (m : Machine) : Machine :=
  {| memory := memory m; reg := reg m; running := running m; host := host m;
     stdout := v; opened := opened m |}.

Definition with_opened (v : list string) (m : Machine) : Machine :=
  {| memory := memory m; reg := reg m; running := running m; host := host m;
     stdout := stdout m; opened := v |}.

(** The outcome of a computation: a value, or the fault that ended the
    process, in both cases with the state reached. *)
Inductive Res (A : Type) : Type :=
| Ok (a : A) (m : Machine)
| Stop (f : Fault) (m : Machine).

Arguments Ok {A} a m.
Arguments Stop {A} f m.

Definition M (A : Type) : Type := Machine -> Res A.

Definition ret {A} (a : A) : M A := fun m => Ok a m.

Definition bind {A B} (c : M A) (k : A -> M B) : M B :=
  fun m =>
    match c m with
    | Ok a m' => k a m'
    | Stop f m' => Stop f m'
    end.

Definition stop {A} (f : Fault) : M A := fun m => Stop f m.

Notation "x <- c ;; k" := (bind c (fun x => k))
  (at level 100, c at next level, right associativity).
Notation "c ;;; k" := (bind c (fun _ => k))
  (at level 100, right associativity).

(** What a run shows: the value returned, the fault that ended it, and the
    state it reached. *)
Definition returned {A} (r : Res A) : option A :=
  match r with
  | Ok a _ => Some a
  | Stop _ _ => None
  end.

Definition fault_of {A} (r : Res A) : option Fault :=
  match r with
  | Ok _ _ => None
  | Stop f _ => Some f
  end.

Definition final {A} (r : Res A) : Machine :=
  match r with
  | Ok _ m => m
  | Stop _ m => m
  end.

(** A bounds-checked read [l[i]]. *)
Definition index (l : list Z) (i : Z) : option Z :=
  if i <? 0 then None else l !! Z.to_nat i.

Definition in_range (l : list Z) (i : Z) : bool :=
  (0 <=? i) && (i <? Z.of_nat (length l)).

(** [reg[r]] as an expression and [reg[r] = v]. *)
Definition get_reg (r : Z) : M Z :=
  fun m =>
    match index (reg m) r with
    | Some v => Ok v m
    | None => Stop IndexOutOfRange m
    end.

Definition set_reg (r v : Z) : M unit :=
  fun m =>
    if in_range (reg m) r
    then Ok tt (with_reg (<[Z.to_nat r := v]> (reg m)) m)
    else Stop IndexOutOfRange m.

(** [memory[a]] as an expression and [memory[a] = v]. *)
Definition get_mem (a : Z) : M Z :=
  fun m =>
    match index (memory m) a with
    | Some v => Ok v m
    | None => Stop IndexOutOfRange m
    end.

Definition set_mem (a v : Z) : M unit :=
  fun m =>
    if in_range (memory m) a
    then Ok tt (with_memory (<[Z.to_nat a := v]> (memory m)) m)
    else Stop IndexOutOfRange m.

(** A shift whose count is negative panics. *)
Definition shift {A} (o : option A) : M A :=
  match o with
  | Some v => ret v
  | None => stop NegativeShift
  end.

(** [fmt.Printf("%c", rune(c))], [fmt.Printf("...%s", s)] with the text
    already formatted, and [fmt.Println(s)]. *)
Definition write_bytes (bs : list Z) : M unit :=
  fun m => Ok tt (with_stdout (stdout m ++ bs) m).

Definition putc (c : Z) : M unit := write_bytes (utf8_encode c).

Definition print (s : string) : M unit := write_bytes (bytes_of_string s).

Definition println (s : string) : M unit :=
  write_bytes (bytes_of_string s ++ [10]).

(** One call on a fresh reader of standard input. *)
Definition on_stdin {A} (call : H -> option A * H) : M (option A) :=
  fun m => let (r, h) := call (host m) in Ok r (with_host h m).

(** ** Bit utilities on the state *)

(** [updateFlags]: the register is read once here and twice in the source,
    with nothing written in between. *)
Definition updateFlags (r : Z) : M unit :=
  v <- get_reg r ;;
  if v =? 0 then set_reg R_COND FL_ZRO
  else if negb (Z.shiftr v 15 =? 0) then set_reg R_COND FL_NEG
  else set_reg R_COND FL_POS.

(** ** Memory bus *)

Definition peekChar : M bool :=
  r <- on_stdin stdin_Peek1 ;;
  ret (match r with Some _ => true | None => false end).

(** [memRead]; the mutex is taken and released around the body and the
    program has a single thread, so it does not appear. *)
Definition memRead (address : Z) : M Z :=
  (if address =? MR_KBSR then
     avail <- peekChar ;;
     if avail then
       r <- on_stdin stdin_ReadByte ;;
       match r with
       | None => stop (Panic "couldn't read from I/O")
       | Some char =>
           set_mem MR_KBSR (Z.shiftl 1 15) ;;;
           set_mem MR_KBDR (Z_of_byte char)
       end
     else set_mem MR_KBSR 0
   else ret tt) ;;;
  fun m =>
    if address <=? Z.of_nat (length (memory m))
    then get_mem address m
    else Stop (LogFatal "unhandled cpu memory read at") m.

Definition memWrite (address value : Z) : M unit :=
  if address <=? 65535 then set_mem address value
  else stop (LogFatal "cannot write to memory").

(** ** Image loader *)

(** [binary.BigEndian.Uint16]. *)
Definition be16 (hi lo : byte) : Z :=
  Z.lor (Z_of_byte lo) (Z.shiftl (Z_of_byte hi) 8).

(** [file.Read(buf)] with [len(buf) = n] on the unread part of a regular
    file: at end of file it fails with [io.EOF]; otherwise it fills a
    prefix of the (zeroed) buffer and returns the buffer and what is left
    of the file. *)
Definition file_Read (n : nat) (file : list byte)
  : option (list byte * list byte) :=
  match n, file with
  | O, _ => Some ([], file)
  | _, [] => None
  | _, _ =>
      let got := take n file in
      Some (got ++ replicate (n - length got) x00, drop n file)
  end.

(** [binary.Read(buffer, binary.BigEndian, &val)] for a fresh
    [var val uint16]: with fewer than two bytes left the read fails, the
    buffer is drained and [val] keeps its zero value; the caller drops the
    error. *)
Definition binary_Read_uint16 (buffer : list byte) : Z * list byte :=
  match buffer with
  | hi :: lo :: rest => (be16 hi lo, rest)
  | _ => (0, [])
  end.

(** [for i := origin; i < math.MaxUint16; i++ { ... memory[i] = val }].
    The counter [n] bounds the number of iterations; [MaxUint16] of them
    are always enough. *)
Fixpoint readImage_loop (n : nat) (i : Z) (buffer : list byte) : M unit :=
  if i <? MaxUint16 then
    match n with
    | O => stop OutOfFuel
    | S n' =>
        let (val, buffer') := binary_Read_uint16 buffer in
        set_mem i val ;;;
        readImage_loop n' (add16 i 1) buffer'
    end
  else ret tt.

(** [readImage].  The two [log.Printf] calls write to standard error, which
    is not part of the state. *)
Definition readImage (path : string) : M bool :=
  fun m =>
    let m := with_opened (opened m ++ [path]) m in
    match os_Open (host m) path with
    | None => Ok false m
    | Some file =>
        let size := length file in
        match file_Read 2 file with
        | None => Ok false m
        | Some (headerBytes, rest) =>
            match headerBytes with
            | [hi; lo] =>
                let origin := be16 hi lo in
                match file_Read size rest with
                | None => Ok false m
                | Some (byteArr, _) =>
                    (readImage_loop (Z.to_nat MaxUint16) origin byteArr ;;;
                     ret true) m
                end
            | _ => Ok false m
            end
        end
    end.

(** ** Opcode handlers: the cases of the [switch op] in [main] *)

Definition op_ADD (instr : Z) : M unit :=
  let r0 := Z.land (Z.shiftr instr 9) 0x7 in
  let r1 := Z.land (Z.shiftr instr 6) 0x7 in
  let immFlag := Z.land (Z.shiftr instr 5) 0x1 in
  (if immFlag =? 1 then
     imm5 <- shift (signExtend (Z.land instr 0x1F) 5) ;;
     a <- get_reg r1 ;;
     set_reg r0 (add16 a imm5)
   else
     let r2 := Z.land instr 0x7 in
     a <- get_reg r1 ;;
     b <- get_reg r2 ;;
     set_reg r0 (add16 a b)) ;;;
  updateFlags r0.

Definition op_AND (instr : Z) : M unit :=
  let r0 := Z.land (Z.shiftr instr 9) 0x7 in
  let r1 := Z.land (Z.shiftr instr 6) 0x7 in
  let immFlag := Z.land (Z.shiftr instr 5) 0x1 in
  (if immFlag =? 0 then
     let r2 := Z.land instr 0x7 in
     a <- get_reg r1 ;;
     b <- get_reg r2 ;;
     set_reg r0 (Z.land a b)
   else
     imm5 <- shift (signExtend (Z.land instr 0x1F) 5) ;;
     a <- get_reg r1 ;;
     set_reg r0 (Z.land a imm5)) ;;;
  updateFlags r0.

Definition op_NOT (instr : Z) : M unit :=
  let r0 := Z.land (Z.shiftr instr 9) 0x7 in
  let r1 := Z.land (Z.shiftr instr 6) 0x7 in
  a <- get_reg r1 ;;
  set_reg r0 (not16 a) ;;;
  updateFlags r0.

Definition op_BR (instr : Z) : M unit :=
  pcOffset <- shift (signExtend (Z.land instr 0x1FF) 9) ;;
  let condFlag := Z.land (Z.shiftr instr 9) 0x7 in
  cond <- get_reg R_COND ;;
  if negb (Z.land condFlag cond =? 0) then
    pc <- get_reg R_PC ;;
    set_reg R_PC (add16 pc pcOffset)
  else ret tt.

Definition op_JMP (instr : Z) : M unit :=
  let r1 := Z.land (Z.shiftr instr 6) 0x7 in
  a <- get_reg r1 ;;
  set_reg R_PC a.

Definition op_JSR (instr : Z) : M unit :=
  pc <- get_reg R_PC ;;
  set_reg R_R7 pc ;;;
  let flag := Z.land (Z.shiftr instr 11) 1 in
  if flag =? 0 then
    let r1 := Z.land (Z.shiftr instr 6) 0x7 in
    a <- get_reg r1 ;;
    set_reg R_PC a
  else
    pc <- get_reg R_PC ;;
    off <- shift (signExtend (Z.land instr 0x7FF) 11) ;;
    set_reg R_PC (add16 pc off).

Definition op_LD (instr : Z) : M unit :=
  let r0 := Z.land (Z.shiftr instr 9) 0x7 in
  pcOffset <- shift (signExtend (Z.land instr 0x1FF) 9) ;;
  pc <- get_reg R_PC ;;
  v <- memRead (add16 pc pcOffset) ;;
  set_reg r0 v ;;;
  updateFlags r0.

Definition op_LDI (instr : Z) : M unit :=
  let r0 := Z.land (Z.shiftr instr 9) 0x7 in
  pcOffset <- shift (signExtend (Z.land instr 0x1FF) 9) ;;
  pc <- get_reg R_PC ;;
  a <- memRead (add16 pc pcOffset) ;;
  v <- memRead a ;;
  set_reg r0 v ;;;
  updateFlags r0.

Definition op_LDR (instr : Z) : M unit :=
  let r0 := Z.land (Z.shiftr instr 9) 0x7 in
  offset <- shift (signExtend (Z.land instr 0x3F) 6) ;;
  let r1 := Z.land (Z.shiftr instr 6) 0x7 in
  base <- get_reg r1 ;;
  v <- memRead (add16 base offset) ;;
  set_reg r0 v ;;;
  updateFlags r0.

Definition op_LEA (instr : Z) : M unit :=
  let r0 := Z.land (Z.shiftr instr 9) 0x7 in
  pcOffset <- shift (signExtend (Z.land instr 0x1FF) 9) ;;
  pc <- get_reg R_PC ;;
  set_reg r0 (add16 pc pcOffset) ;;;
  updateFlags r0.

Definition op_ST (instr : Z) : M unit :=
  let r0 := Z.land (Z.shiftr instr 9) 0x7 in
  pcOffset <- shift (signExtend (Z.land instr 0x1FF) 9) ;;
  pc <- get_reg R_PC ;;
  v <- get_reg r0 ;;
  memWrite (add16 pc pcOffset) v.

Definition op_STI (instr : Z) : M unit :=
  let r0 := Z.land (Z.shiftr instr 9) 0x7 in
  pcOffset <- shift (signExtend (Z.land instr 0x1FF) 9) ;;
  pc <- get_reg R_PC ;;
  address <- memRead (add16 pc pcOffset) ;;
  v <- get_reg r0 ;;
  memWrite address v.

Definition op_STR (instr : Z) : M unit :=
  let r0 := Z.land (Z.shiftr instr 9) 0x7 in
  let r1 := Z.land (Z.shiftr instr 6) 0x7 in
  offset <- shift (signExtend (Z.land instr 0x3F) 6) ;;
  base <- get_reg r1 ;;
  v <- get_reg r0 ;;
  memWrite (add16 base offset) v.

(** ** Trap routines *)

(** [TRAP_PUTS]: [for ok := true; ok; ok = (chr != 0x0) { ... }]; the
    condition is tested after the body. *)
Fixpoint puts_loop (fuel : nat) (address i : Z) : M unit :=
  match fuel with
  | O => stop OutOfFuel
  | S fuel' =>
      w <- get_mem (add16 address i) ;;
      let chr := Z.land w 0xFFFF in
      putc chr ;;;
      let i := add16 i 1 in
      if negb (chr =? 0x0) then puts_loop fuel' address i else ret tt
  end.

(** [TRAP_PUTSP]: [for i := uint16(0); ; i++ { ...; i++ }]. *)
Fixpoint putsp_loop (fuel : nat) (address i : Z) : M unit :=
  match fuel with
  | O => stop OutOfFuel
  | S fuel' =>
      chr <- get_mem (add16 address i) ;;
      if chr =? 0 then ret tt
      else
        let char1 := Z.land chr 0xFF in
        putc char1 ;;;
        let char2 := Z.shiftr chr 8 in
        (if negb (char2 =? 0) then putc char2 else ret tt) ;;;
        let i := add16 i 1 in
        let i := add16 i 1 in
        putsp_loop fuel' address i
  end.

(** [reader.ReadRune()] on a fresh reader, then [uint16(char)]. *)
Definition read_char : M Z :=
  r <- on_stdin stdin_ReadRune ;;
  match r with
  | None => stop (Panic "tried reading entered char, failed")
  | Some char => ret (wrap16 char)
  end.

Definition trap_GETC : M unit :=
  c <- read_char ;;
  set_reg R_R0 c ;;;
  updateFlags R_R0.

Definition trap_OUT : M unit :=
  char <- get_reg R_R0 ;;
  putc char.

Definition trap_PUTS (fuel : nat) : M unit :=
  address <- get_reg R_R0 ;;
  puts_loop fuel address 0.

Definition trap_PUTSP (fuel : nat) : M unit :=
  address <- get_reg R_R0 ;;
  putsp_loop fuel address 0.

Definition trap_IN : M unit :=
  println "Enter character: " ;;;
  c <- read_char ;;
  set_reg R_R0 c ;;;
  updateFlags R_R0.

Definition trap_HALT : M unit :=
  println "HALT" ;;;
  fun m => Ok tt (with_running false m).

Definition op_TRAP (fuel : nat) (instr : Z) : M unit :=
  pc <- get_reg R_PC ;;
  set_reg R_R7 pc ;;;
  let vect := Z.land instr 0xFF in
  if vect =? TRAP_GETC then trap_GETC
  else if vect =? TRAP_OUT then trap_OUT
  else if vect =? TRAP_PUTS then trap_PUTS fuel
  else if vect =? TRAP_PUTSP then trap_PUTSP fuel
  else if vect =? TRAP_IN then trap_IN
  else if vect =? TRAP_HALT then trap_HALT
  else ret tt.

(** ** Execution loop *)

(** [switch op { ... }]: a Go case does not fall through, so the empty
    cases [OP_RES] and [OP_RTI] leave the switch. *)
Definition dispatch (fuel : nat) (op instr : Z) : M unit :=
  if op =? OP_ADD then op_ADD instr
  else if op =? OP_AND then op_AND instr
  else if op =? OP_NOT then op_NOT instr
  else if op =? OP_BR then op_BR instr
  else if op =? OP_JMP then op_JMP instr
  else if op =? OP_JSR then op_JSR instr
  else if op =? OP_LD then op_LD instr
  else if op =? OP_LDI then op_LDI instr
  else if op =? OP_LDR then op_LDR instr
  else if op =? OP_LEA then op_LEA instr
  else if op =? OP_ST then op_ST instr
  else if op =? OP_STI then op_STI instr
  else if op =? OP_STR then op_STR instr
  else if op =? OP_TRAP then op_TRAP fuel instr
  else if op =? OP_RES then ret tt
  else if op =? OP_RTI then ret tt
  else stop (Panic "bad opcode").

(** [op := instr >> 12; switch op ...]. *)
Definition execute (fuel : nat) (instr : Z) : M unit :=
  let op := Z.shiftr instr 12 in
  dispatch fuel op instr.

(** [instr := memRead(reg[R_PC]); reg[R_PC]++]. *)
Definition fetch : M Z :=
  pc <- get_reg R_PC ;;
  instr <- memRead pc ;;
  pc <- get_reg R_PC ;;
  set_reg R_PC (add16 pc 1) ;;;
  ret instr.

(** One iteration of [for running { ... }]. *)
Definition step (fuel : nat) : M unit :=
  instr <- fetch ;;
  execute fuel instr.

(** [for running { ... }], at most [n] iterations. *)
Fixpoint run (n fuel : nat) : M unit :=
  fun m =>
    if running m then
      match n with
      | O => Stop OutOfFuel m
      | S n' => (step fuel ;;; run n' fuel) m
      end
    else Ok tt m.

(** [for i := 0; i < len(args); i++ { if !readImage(args[i]) { ... } }],
    on the arguments from index [i] on. *)
Fixpoint load_images (args : list string) : M unit :=
  match args with
  | [] => ret tt
  | a :: rest =>
      ok <- readImage a ;;
      if negb ok then
        print ("failed to load image: " ++ a) ;;;
        stop (Exit 1)
      else load_images rest
  end.

(** [main]; [args] is [os.Args], whose first element is the program's own
    name.  The final [fmt.Sprintln] has no effect. *)
Definition main (args : list string) (n fuel : nat) : M unit :=
  (if Z.of_nat (length args) <? 2 then
     println "lc3 [image-file1] ..." ;;;
     stop (Exit 2)
   else ret tt) ;;;
  load_images args ;;;
  set_reg R_COND FL_ZRO ;;;
  let PC_START := 0x3000 in
  set_reg R_PC (wrap16 PC_START) ;;;
  (fun m => Ok tt (with_running true m)) ;;;
  run n fuel.

(** The state in which the process starts. *)
Definition boot (h : H) : Machine :=
  {| memory := replicate (Z.to_nat MEMORY_MAX) 0;
     reg := replicate (Z.to_nat R_COUNT) 0;
     running := false;
     host := h;
     stdout := [];
     opened := [] |}.

(** ** Well-formed states *)

(** The Go types of the two variables: [[]uint16] of length [MEMORY_MAX]
    and [[R_COUNT]uint16]. *)
Record wf (m : Machine) : Prop := {
  wf_mem_len : Z.of_nat (length (memory m)) = MEMORY_MAX;
  wf_mem_words : Forall word (memory m);
  wf_reg_len : Z.of_nat (length (reg m)) = R_COUNT;
  wf_reg_words : Forall word (reg m)
}.

(** The content of register [r]. *)
Definition reg_val (m : Machine) (r : Z) : Z :=
  default 0 (reg m !! Z.to_nat r).

(** The value ADD computes: [R[SR1]] plus the sign-extended immediate when
    bit 5 is set, plus [R[SR2]] otherwise, modulo [2^16]. *)
Definition ADD_value (m : Machine) (instr : Z) : Z :=
  (reg_val m (Z.land (Z.shiftr instr 6) 0x7) +
   (if Z.testbit instr 5 then signed_value 5 instr
    else reg_val m (Z.land instr 0x7))) mod 2 ^ 16.

(** [COND] holds one of the three flags. *)
Definition cond_ok (m : Machine) : Prop :=
  reg m !! Z.to_nat R_COND = Some FL_POS \/
  reg m !! Z.to_nat R_COND = Some FL_ZRO \/
  reg m !! Z.to_nat R_COND = Some FL_NEG.

(** [COND] classifies the content of register [r]. *)
Definition classifies (r : Z) (m : Machine) : Prop :=
  exists v, reg m !! Z.to_nat r = Some v /\
            reg m !! Z.to_nat R_COND = Some (flag_of v).

(** The opcodes whose handler ends in [updateFlags(r0)]. *)
Definition sets_flags (op : Z) : bool :=
  (op =? OP_ADD) || (op =? OP_AND) || (op =? OP_NOT) || (op =? OP_LD) ||
  (op =? OP_LDI) || (op =? OP_LDR) || (op =? OP_LEA).

(** States of the execution loop: [main] enters the loop with
    [COND = FL_ZRO], and each iteration runs [step] while [running]. *)
Inductive reachable : Machine -> Prop :=
| reachable_init m :
    wf m -> reg m !! Z.to_nat R_COND = Some FL_ZRO -> reachable m
| reachable_step m fuel m' :
    reachable m -> running m = true -> step fuel m = Ok tt m' ->
    reachable m'.

(** The invariant of the execution loop: the state is well formed and, when
    [strict] is set, [COND] holds one of the three flags. *)
Definition Inv (strict : bool) (m : Machine) : Prop :=
  wf m /\ (strict = true -> cond_ok m).

(** The faults of the host: a read of standard input that fails. *)
Definition io_fault (f : Fault) : Prop :=
  f = Panic "couldn't read from I/O" \/
  f = Panic "tried reading entered char, failed".

(** The faults of a string trap: those of the host, or a loop cut short by
    the fuel. *)
Definition loop_fault (f : Fault) : Prop := io_fault f \/ f = OutOfFuel.

(** Partial correctness with faults: from a state satisfying [P], [c]
    either returns a value and state satisfying [Q], or stops with a fault
    satisfying [E]. *)
Definition triple {A} (P : Machine -> Prop) (c : M A)
    (Q : A -> Machine -> Prop) (E : Fault -> Prop) : Prop :=
  forall m, P m ->
    match c m with
    | Ok a m' => Q a m'
    | Stop f _ => E f
    end.

(** [c] keeps the invariant, returns a value satisfying [F], and stops
    only with a fault in [E]. *)
Definition safe {A} (strict : bool) (E : Fault -> Prop) (F : A -> Prop)
    (c : M A) : Prop :=
  triple (Inv strict) c (fun a m => F a /\ Inv strict m) E.

(** The faults [execute] can stop with on the instruction [instr]: those of
    the host, and the fuel of the two string traps. *)
Definition exec_fault (instr : Z) (f : Fault) : Prop :=
  io_fault f \/
  (f = OutOfFuel /\ Z.shiftr instr 12 = OP_TRAP /\
   (Z.land instr 0xFF = TRAP_PUTS \/ Z.land instr 0xFF = TRAP_PUTSP)).

End Machine.

Arguments Machine H : clear implicits.
Arguments Res H A : clear implicits.
Arguments M H A : clear implicits.
Arguments Ok {H A} a m.
Arguments Stop {H A} f m.

Notation "x <- c ;; k" := (bind c (fun x => k))
  (at level 100, c at next level, right associativity).
Notation "c ;;; k" := (bind c (fun _ => k))
  (at level 100, right associativity).

(** ** What the specification asks of the string traps *)

(** The characters PUTS is to write: one per word, from address [a] up to
    and excluding the first zero word ([n] bounds the search). *)
Fixpoint PUTS_spec_chars (n : nat) (mem : list Z) (a : Z) : list Z :=
  match n with
  | O => []
  | S n' =>
      match index mem a with
      | Some w =>
          if w =? 0 then [] else w :: PUTS_spec_chars n' mem (add16 a 1)
      | None => []
      end
  end.

(** The characters PUTSP is to write: for each word from address [a] up to
    and excluding the first zero word, advancing one word at a time, the
    low byte and then the high byte unless it is zero. *)
Fixpoint PUTSP_spec_chars (n : nat) (mem : list Z) (a : Z) : list Z :=
  match n with
  | O => []
  | S n' =>
      match index mem a with
      | Some w =>
          if w =? 0 then []
          else
            (Z.land w 0xFF ::
             (if Z.shiftr w 8 =? 0 then [] else [Z.shiftr w 8])) ++
            PUTSP_spec_chars n' mem (add16 a 1)
      | None => []
      end
  end.

(** The bytes a list of characters is written as. *)
Definition chars_bytes (cs : list Z) : list Z := flat_map utf8_encode cs.

(** ** Image files *)

(** The word that the [k]-th [binary.Read] of the loading loop obtains from
    a buffer. *)
Fixpoint buffer_word (k : nat) (buffer : list byte) : Z :=
  match k with
  | O => fst (binary_Read_uint16 buffer)
  | S k' => buffer_word k' (snd (binary_Read_uint16 buffer))
  end.

(** The bytes of a sequence of big-endian words, each given as its high
    and low byte. *)
Definition words_bytes (ws : list (byte * byte)) : list byte :=
  flat_map (fun p => [fst p; snd p]) ws.

(** An image file: the origin, then the data words. *)
Definition image_bytes (origin : byte * byte) (ws : list (byte * byte))
  : list byte :=
  fst origin :: snd origin :: words_bytes ws.

(** ** Concrete states *)

Definition no_input : Script := {| script_input := []; script_files := [] |}.

(** [mem[a], mem[a+1], ... = ws], for a block that does not wrap. *)
Fixpoint poke (a : Z) (ws : list Z) (mem : list Z) : list Z :=
  match ws with
  | [] => mem
  | w :: ws' => poke (a + 1) ws' (<[Z.to_nat a := w]> mem)
  end.

(** The state at the head of the execution loop for a host [h] and a memory
    holding [ws] from address [a] on. *)
Definition started {H} (h : H) (a : Z) (ws : list Z) : Machine H :=
  {| memory := poke a ws (replicate (Z.to_nat MEMORY_MAX) 0);
     reg := [0; 0; 0; 0; 0; 0; 0; 0; 0x3000; FL_ZRO];
     running := true;
     host := h;
     stdout := [];
     opened := [] |}.

(** The program [ADD R0, R0, #3; HALT] at [0x3000]. *)
Definition add_program : Machine Script :=
  started no_input 0x3000 [0x1023; 0xF025].

(** [R0 = 0x4000] and the string "Hi!" at [0x4000], one character per
    word, with its terminator. *)
Definition hi_machine : Machine Script :=
  with_reg [0x4000; 0; 0; 0; 0; 0; 0; 0; 0x3001; FL_ZRO]
    (started no_input 0x4000 [0x48; 0x69; 0x21; 0]).

(** [R0 = 0x4000] and the string "Hello" at [0x4000], two characters per
    word, with its terminator. *)
Definition hello_packed : Machine Script :=
  with_reg [0x4000; 0; 0; 0; 0; 0; 0; 0; 0x3001; FL_ZRO]
    (started no_input 0x4000 [0x6548; 0x6C6C; 0x006F; 0]).

(** A file system with two images: one word [0xABCD] at origin [0xFFF0],
    and one word [0x1234] at origin [0xFFFF]. *)
Definition two_images : Script :=
  {| script_input := [];
     script_files :=
       [("high.obj"%string, [xff; xf0; xab; xcd]);
        ("last.obj"%string, [xff; xff; x12; x34])] |}.

(** A memory in which an earlier image left [0xBEEF] at [0xFFF2]. *)
Definition loaded_before : Machine Script :=
  with_memory (<[Z.to_nat 0xFFF2 := 0xBEEF]> (memory (boot two_images)))
    (boot two_images).

(** The emulator found on the search path and started as [lc3 prog.obj] in
    a directory that holds the image [prog.obj] (a single HALT at
    [0x3000]) and no file named [lc3]. *)
Definition prog_dir : Script :=
  {| script_input := [];
     script_files := [("prog.obj"%string, [x30; x00; xf0; x25])] |}.

(** ** States and addresses that the handlers' results are stated with *)

(** The content of memory cell [a]. *)
Definition mem_val {H} (m : Machine H) (a : Z) : Z :=
  default 0 (memory m !! Z.to_nat a).

(** The state after [reg[r] = v; updateFlags(r)]. *)
Definition loaded {H} (r v : Z) (m : Machine H) : Machine H :=
  with_reg (<[Z.to_nat R_COND := flag_of v]> (<[Z.to_nat r := v]> (reg m))) m.

(** The state after [reg[r] = v]. *)
Definition reg_set {H} (r v : Z) (m : Machine H) : Machine H :=
  with_reg (<[Z.to_nat r := v]> (reg m)) m.

(** The state after [memory[a] = v]. *)
Definition mem_set {H} (a v : Z) (m : Machine H) : Machine H :=
  with_memory (<[Z.to_nat a := v]> (memory m)) m.

(** A PC-relative or base-relative address: the base plus the
    two's-complement value of the low [n] bits of the instruction, modulo
    [2^16]. *)
Definition rel_addr (base n instr : Z) : Z :=
  (base + signed_value n instr) mod 2 ^ 16.

(** What [main] may end in when it is given at least one argument after the
    program's name: a normal return from the loop, in a well-formed state
    with a flag in [COND] and [running] cleared; exit code 1 after a
    message naming the first element of [args] that failed to load, with
    the elements before it, and no other path, opened; or a fault of the
    loop (a failed read of the host, or the fuel). *)
Definition main_outcome {H} `{Host H} (args : list string) (m : Machine H)
    (r : Res H unit) : Prop :=
  match r with
  | Ok _ m' => wf m' /\ cond_ok m' /\ running m' = false
  | Stop f m' =>
      (f = Exit 1 /\
       exists done a rest,
         args = done ++ a :: rest /\
         opened m' = opened m ++ done ++ [a] /\
         stdout m' =
           stdout m ++ bytes_of_string ("failed to load image: " ++ a)) \/
      loop_fault f
  end.

(** A host with the key "A" waiting on standard input, and the state at
    the head of the loop on it. *)
Definition key_pending : Script :=
  {| script_input := [x41]; script_files := [] |}.

Definition key_machine : Machine Script := started key_pending 0x3000 [0xF020].


(** [hello_packed] with another word between the first two that PUTSP
    visits. *)
Definition hello_other : Machine Script :=
  mem_set 0x4001 0x7A7A hello_packed.

(** * Properties *)

(** ** Words and shifts *)

Lemma wrap16_word z : word (wrap16 z).
Proof. unfold word, wrap16. apply Z.mod_pos_bound. lia. Qed.

Lemma word_0 : word 0.
Proof. unfold word. lia. Qed.

Lemma add16_word a b : word (add16 a b).
Proof. apply wrap16_word. Qed.

Lemma not16_word a : word (not16 a).
Proof. apply wrap16_word. Qed.

Lemma log2_word z : word z -> Z.log2 z < 16.
Proof.
  unfold word. intros [H0 H1].
  destruct (Z.eq_dec z 0) as [-> | Hne]; [reflexivity |].
  apply Z.log2_lt_pow2; [lia | exact H1].
Qed.

Lemma word_log2 z : 0 <= z -> Z.log2 z < 16 -> word z.
Proof.
  unfold word. intros H0 Hl. split; [exact H0 |].
  destruct (Z.eq_dec z 0) as [-> | Hne]; [lia |].
  change 65536 with (2 ^ 16). apply Z.log2_lt_pow2; [lia | exact Hl].
Qed.

Lemma land_word a b : word a -> 0 <= b -> word (Z.land a b).
Proof.
  intros Ha Hb. pose proof (log2_word a Ha) as Hl. destruct Ha as [Ha0 Ha1].
  apply word_log2.
  - apply Z.land_nonneg. left. exact Ha0.
  - pose proof (Z.log2_land a b Ha0 Hb) as Hm. lia.
Qed.

Lemma lor_word a b : word a -> word b -> word (Z.lor a b).
Proof.
  intros Ha Hb. pose proof (log2_word a Ha). pose proof (log2_word b Hb).
  destruct Ha as [Ha0 Ha1], Hb as [Hb0 Hb1].
  apply word_log2.
  - apply Z.lor_nonneg. lia.
  - rewrite Z.log2_lor by lia. lia.
Qed.

Lemma Z_of_byte_bound b : 0 <= Z_of_byte b < 256.
Proof.
  unfold Z_of_byte. pose proof (Byte.to_N_bounded b) as Hb. lia.
Qed.

Lemma Z_of_byte_word b : word (Z_of_byte b).
Proof. pose proof (Z_of_byte_bound b). unfold word. lia. Qed.

(** A shift by sixteen or more empties a [uint16]. *)
Lemma wrap16_shiftl_ge16 a n : 16 <= n -> wrap16 (Z.shiftl a n) = 0.
Proof.
  intros Hn. unfold wrap16.
  rewrite Z.shiftl_mul_pow2 by lia.
  replace n with ((n - 16) + 16) by lia.
  rewrite Z.pow_add_r by lia.
  change (2 ^ 16) with 65536.
  rewrite Z.mul_assoc. apply Z_mod_mult.
Qed.

(** A property checked on every integer below a bound holds below it. *)
Lemma below_forallb (P : Z -> bool) (n : nat) :
  forallb P (map Z.of_nat (seq 0 n)) = true ->
  forall x, 0 <= x < Z.of_nat n -> P x = true.
Proof.
  intros Hall x Hx. rewrite forallb_forall in Hall. apply Hall.
  rewrite <- (Z2Nat.id x) by lia. apply in_map. apply in_seq. lia.
Qed.

(** The mask and the fill of [signExtend] never overlap. *)
Lemma fill_mask_disjoint n :
  0 <= n ->
  Z.land (wrap16 (Z.shiftl 0xFFFF n)) (wrap16 (wrap16 (Z.shiftl 1 n) - 1)) = 0.
Proof.
  intros Hn. destruct (Z_lt_le_dec n 16) as [Hlt | Hge].
  - apply Z.eqb_eq.
    apply (below_forallb
             (fun k => Z.land (wrap16 (Z.shiftl 0xFFFF k))
                         (wrap16 (wrap16 (Z.shiftl 1 k) - 1)) =? 0) 16);
      [vm_compute; reflexivity | lia].
  - rewrite (wrap16_shiftl_ge16 0xFFFF n Hge). apply Z.land_0_l.
Qed.

Lemma signExtend_unfold x n :
  1 <= n ->
  signExtend x n =
  Some (sext_of (Z.land x (wrap16 (wrap16 (Z.shiftl 1 n) - 1))) n).
Proof.
  intros Hn. unfold signExtend, shl16, shr16, sext_of.
  destruct (Z.ltb_spec n 0) as [? | _]; [lia |].
  destruct (Z.ltb_spec (n - 1) 0) as [? | _]; [lia |].
  cbv zeta.
  destruct (negb _); reflexivity.
Qed.

Lemma sext_of_mask m n :
  0 <= n ->
  let mask := wrap16 (wrap16 (Z.shiftl 1 n) - 1) in
  Z.land m mask = m ->
  Z.land (sext_of m n) mask = m.
Proof.
  intros Hn mask Hm. unfold sext_of.
  destruct (negb _); [| exact Hm].
  rewrite Z.land_lor_distr_l, Hm.
  unfold mask. rewrite (fill_mask_disjoint n Hn). apply Z.lor_0_r.
Qed.

(** C9. [signExtend] is idempotent: for every word [x] and every bit count
    [n >= 1], the call returns, and extending the result again with the
    same [n] returns that result unchanged. *)
Theorem signExtend_idempotent (x n : Z) :
  word x -> 1 <= n ->
  exists y, signExtend x n = Some y /\ signExtend y n = Some y.
Proof.
  intros _ Hn.
  set (mask := wrap16 (wrap16 (Z.shiftl 1 n) - 1)).
  set (m := Z.land x mask).
  exists (sext_of m n). split.
  - apply signExtend_unfold. exact Hn.
  - rewrite signExtend_unfold by exact Hn.
    fold mask. f_equal. f_equal.
    apply sext_of_mask; [lia |].
    unfold m. rewrite <- Z.land_assoc, Z.land_diag. reflexivity.
Qed.

(** The result of [signExtend] is a word. *)
Lemma signExtend_word x n y : word x -> signExtend x n = Some y -> word y.
Proof.
  intros Hx. unfold signExtend, shl16, shr16.
  destruct (n <? 0); [discriminate |].
  destruct (n - 1 <? 0); [discriminate |].
  cbv zeta.
  set (m := Z.land x _).
  assert (Hm : word m).
  { apply land_word; [exact Hx |]. apply wrap16_word. }
  destruct (negb _); intros [= <-]; [| exact Hm].
  apply lor_word; [exact Hm | apply wrap16_word].
Qed.

(** The immediate of ADD and AND: [signExtend(instr & 0x1F, 5)] is the
    two's-complement value of the low five bits, as a word. *)
Lemma signExtend_imm5 instr :
  signExtend (Z.land instr 0x1F) 5 = Some (wrap16 (signed_value 5 instr)).
Proof.
  unfold signed_value. change 0x1F with (Z.ones 5).
  rewrite Z.land_ones by lia.
  assert (Hr : 0 <= instr mod 2 ^ 5 < 32) by (apply Z.mod_pos_bound; lia).
  generalize dependent (instr mod 2 ^ 5). intros v Hv.
  pose proof (below_forallb
    (fun k => match signExtend k 5 with
              | Some y => y =? wrap16 (if k <? 2 ^ (5 - 1) then k else k - 2 ^ 5)
              | None => false
              end) 32 ltac:(vm_compute; reflexivity) v Hv) as Hk.
  cbv beta in Hk. destruct (signExtend v 5) as [y |]; [| discriminate Hk].
  apply Z.eqb_eq in Hk. rewrite Hk. reflexivity.
Qed.

(** The test of [updateFlags] on a word is the test of [flag_of]. *)
Lemma shiftr15_testbit v :
  word v -> negb (Z.shiftr v 15 =? 0) = Z.testbit v 15.
Proof.
  intros [H0 H1].
  rewrite Z.shiftr_div_pow2 by lia.
  pose proof (Z.testbit_spec' v 15 ltac:(lia)) as Hb.
  assert (Hq : 0 <= v / 2 ^ 15 < 2).
  { split; [apply Z.div_pos; lia |].
    apply Z.div_lt_upper_bound; [lia |]. change (2 ^ 15 * 2) with 65536. lia. }
  rewrite (Z.mod_small _ _ Hq) in Hb.
  destruct (Z.testbit v 15); simpl in Hb; rewrite <- Hb; reflexivity.
Qed.

(** Bit 5 of the instruction, the way ADD and AND test it. *)
Lemma immFlag_testbit instr :
  Z.land (Z.shiftr instr 5) 1 = Z.b2z (Z.testbit instr 5).
Proof.
  change 1 with (Z.ones 1) at 1. rewrite Z.land_ones by lia.
  change (2 ^ 1) with 2. rewrite <- Z.bit0_mod.
  rewrite Z.shiftr_spec by lia. reflexivity.
Qed.

(** A three-bit register field. *)
Lemma field3_bound x : 0 <= Z.land x 0x7 < 8.
Proof.
  change 0x7 with (Z.ones 3). rewrite Z.land_ones by lia.
  apply Z.mod_pos_bound. reflexivity.
Qed.

(** ** Registers and memory of a well-formed state *)

Section MachineFacts.

Context {H : Type} `{HostOps : Host H}.
Implicit Types (m : Machine H) (f : Fault).

Lemma index_lookup (l : list Z) i :
  0 <= i < Z.of_nat (length l) ->
  exists v, index l i = Some v /\ l !! Z.to_nat i = Some v.
Proof.
  intros Hi. unfold index.
  destruct (Z.ltb_spec i 0) as [? | _]; [lia |].
  destruct (lookup_lt_is_Some_2 l (Z.to_nat i)) as [v Hv]; [lia |].
  exists v. split; exact Hv.
Qed.

Lemma in_range_true (l : list Z) i :
  0 <= i < Z.of_nat (length l) -> in_range l i = true.
Proof.
  intros Hi. unfold in_range.
  apply andb_true_intro. split; [apply Z.leb_le | apply Z.ltb_lt]; lia.
Qed.

Lemma Forall_word_lookup (l : list Z) i v :
  Forall word l -> l !! i = Some v -> word v.
Proof. intros Hl Hv. exact (proj1 (Forall_lookup word l) Hl i v Hv). Qed.

Lemma Forall_word_insert (l : list Z) i v :
  Forall word l -> word v -> Forall word (<[i := v]> l).
Proof. intros Hl Hv. apply Forall_insert; assumption. Qed.

Lemma reg_val_lookup m r :
  wf m -> 0 <= r < R_COUNT -> reg m !! Z.to_nat r = Some (reg_val m r).
Proof.
  intros Hwf Hr. unfold reg_val.
  destruct (lookup_lt_is_Some_2 (reg m) (Z.to_nat r)) as [v Hv].
  - pose proof (wf_reg_len m Hwf). lia.
  - rewrite Hv. reflexivity.
Qed.

Lemma reg_val_word m r : wf m -> 0 <= r < R_COUNT -> word (reg_val m r).
Proof.
  intros Hwf Hr.
  exact (Forall_word_lookup _ _ _ (wf_reg_words m Hwf) (reg_val_lookup m r Hwf Hr)).
Qed.

Lemma get_reg_ok m r :
  wf m -> 0 <= r < R_COUNT -> get_reg r m = Ok (reg_val m r) m.
Proof.
  intros Hwf Hr. unfold get_reg, index.
  destruct (Z.ltb_spec r 0) as [? | _]; [lia |].
  rewrite (reg_val_lookup m r Hwf Hr). reflexivity.
Qed.

Lemma set_reg_ok m r v :
  wf m -> 0 <= r < R_COUNT ->
  set_reg r v m = Ok tt (with_reg (<[Z.to_nat r := v]> (reg m)) m).
Proof.
  intros Hwf Hr. unfold set_reg.
  rewrite in_range_true; [reflexivity |].
  pose proof (wf_reg_len m Hwf). lia.
Qed.

Lemma get_mem_ok m a :
  wf m -> word a ->
  exists v, get_mem a m = Ok v m /\ memory m !! Z.to_nat a = Some v /\ word v.
Proof.
  intros Hwf Ha. unfold get_mem.
  destruct (index_lookup (memory m) a) as [v [Hi Hl]].
  - rewrite (wf_mem_len m Hwf). exact Ha.
  - exists v. rewrite Hi. repeat split; [exact Hl | |];
      apply (Forall_word_lookup _ _ _ (wf_mem_words m Hwf) Hl).
Qed.

Lemma set_mem_ok m a v :
  wf m -> word a ->
  set_mem a v m = Ok tt (with_memory (<[Z.to_nat a := v]> (memory m)) m).
Proof.
  intros Hwf Ha. unfold set_mem.
  rewrite in_range_true; [reflexivity |].
  rewrite (wf_mem_len m Hwf). exact Ha.
Qed.

Lemma wf_with_reg m i v :
  wf m -> word v -> wf (with_reg (<[i := v]> (reg m)) m).
Proof.
  intros [H1 H2 H3 H4] Hv. split; simpl; try assumption.
  - rewrite length_insert. exact H3.
  - apply Forall_word_insert; assumption.
Qed.

Lemma wf_with_memory m i v :
  wf m -> word v -> wf (with_memory (<[i := v]> (memory m)) m).
Proof.
  intros [H1 H2 H3 H4] Hv. split; simpl; try assumption.
  - rewrite length_insert. exact H1.
  - apply Forall_word_insert; assumption.
Qed.

Lemma wf_with_host m h : wf m -> wf (with_host h m).
Proof. intros [H1 H2 H3 H4]. split; assumption. Qed.

Lemma wf_with_stdout m o : wf m -> wf (with_stdout o m).
Proof. intros [H1 H2 H3 H4]. split; assumption. Qed.

Lemma wf_with_running m b : wf m -> wf (with_running b m).
Proof. intros [H1 H2 H3 H4]. split; assumption. Qed.

(** ** Memory bus *)

Lemma memWrite_ok m a v :
  wf m -> word a ->
  memWrite a v m = Ok tt (with_memory (<[Z.to_nat a := v]> (memory m)) m).
Proof.
  intros Hwf Ha. unfold memWrite.
  destruct (Z.leb_spec a 65535) as [_ | Hgt]; [| unfold word in Ha; lia].
  apply set_mem_ok; assumption.
Qed.

(** Reading any address but the keyboard status register is pure. *)
Lemma memRead_pure m a :
  wf m -> word a -> a <> MR_KBSR ->
  exists v, memRead a m = Ok v m /\ memory m !! Z.to_nat a = Some v /\ word v.
Proof.
  intros Hwf Ha Hne. unfold memRead, bind.
  destruct (Z.eqb_spec a MR_KBSR) as [? | _]; [contradiction |].
  unfold ret.
  destruct (Z.leb_spec a (Z.of_nat (length (memory m)))) as [_ | Hgt].
  - apply get_mem_ok; assumption.
  - rewrite (wf_mem_len m Hwf) in Hgt. unfold word in Ha.
    change MEMORY_MAX with 65536 in Hgt. lia.
Qed.

(** C8. For every 16-bit address [a] other than [KBSR] and [KBDR] and every
    16-bit value [v], [memWrite(a, v)] succeeds and [memRead(a)] in the
    state it leaves returns [v], leaving that state as it is. *)
Theorem memWrite_memRead m (a v : Z) :
  wf m -> word a -> word v -> a <> MR_KBSR -> a <> MR_KBDR ->
  exists m', memWrite a v m = Ok tt m' /\ memRead a m' = Ok v m'.
Proof.
  intros Hwf Ha Hv Hs _.
  exists (with_memory (<[Z.to_nat a := v]> (memory m)) m). split.
  - apply memWrite_ok; assumption.
  - destruct (memRead_pure (with_memory (<[Z.to_nat a := v]> (memory m)) m) a)
      as [w [Hr [Hl _]]]; [apply wf_with_memory; assumption | exact Ha | exact Hs |].
    simpl in Hl. rewrite list_lookup_insert_eq in Hl.
    + injection Hl as <-. exact Hr.
    + pose proof (wf_mem_len m Hwf) as Hlen. change MEMORY_MAX with 65536 in Hlen.
      unfold word in Ha. lia.
Qed.

(** ** Flags *)

Lemma updateFlags_ok m r :
  wf m -> 0 <= r < R_COUNT ->
  updateFlags r m =
  Ok tt (with_reg (<[Z.to_nat R_COND := flag_of (reg_val m r)]> (reg m)) m).
Proof.
  intros Hwf Hr. unfold updateFlags, bind.
  rewrite (get_reg_ok m r Hwf Hr). unfold flag_of.
  destruct (reg_val m r =? 0).
  - apply set_reg_ok; [exact Hwf | unfold R_COND, R_COUNT; lia].
  - rewrite (shiftr15_testbit _ (reg_val_word m r Hwf Hr)).
    destruct (Z.testbit (reg_val m r) 15);
      (apply set_reg_ok; [exact Hwf | unfold R_COND, R_COUNT; lia]).
Qed.

Lemma flag_of_cases v : flag_of v = FL_POS \/ flag_of v = FL_ZRO \/ flag_of v = FL_NEG.
Proof.
  unfold flag_of. destruct (v =? 0); [auto |].
  destruct (Z.testbit v 15); auto.
Qed.

Lemma flag_of_word v : word (flag_of v).
Proof.
  destruct (flag_of_cases v) as [-> | [-> | ->]]; unfold word; cbv; intuition discriminate.
Qed.

Lemma reg_val_insert_eq m r v :
  wf m -> 0 <= r < R_COUNT ->
  reg_val (with_reg (<[Z.to_nat r := v]> (reg m)) m) r = v.
Proof.
  intros Hwf Hr. unfold reg_val. simpl.
  rewrite list_lookup_insert_eq; [reflexivity |].
  pose proof (wf_reg_len m Hwf). lia.
Qed.

Lemma reg_val_insert_ne m r r' v :
  0 <= r -> 0 <= r' -> r <> r' ->
  reg_val (with_reg (<[Z.to_nat r := v]> (reg m)) m) r' = reg_val m r'.
Proof.
  intros Hr Hr' Hne. unfold reg_val. simpl.
  rewrite list_lookup_insert_ne; [reflexivity | lia].
Qed.

(** Writing a register and then updating the flags from it. *)
Lemma set_then_updateFlags m r v :
  wf m -> 0 <= r < 8 -> word v ->
  (set_reg r v ;;; updateFlags r) m =
  Ok tt (with_reg (<[Z.to_nat R_COND := flag_of v]>
                     (<[Z.to_nat r := v]> (reg m))) m).
Proof.
  intros Hwf Hr Hv. unfold bind.
  assert (Hr' : 0 <= r < R_COUNT) by (unfold R_COUNT; lia).
  rewrite (set_reg_ok m r v Hwf Hr').
  rewrite updateFlags_ok; [| apply wf_with_reg; assumption | exact Hr'].
  rewrite (reg_val_insert_eq m r v Hwf Hr'). reflexivity.
Qed.

(** ** ADD *)

Lemma dispatch_ADD fuel instr : dispatch (H := H) fuel OP_ADD instr = op_ADD instr.
Proof. reflexivity. Qed.

Lemma op_ADD_run m instr :
  wf m ->
  op_ADD instr m =
  Ok tt (with_reg
           (<[Z.to_nat R_COND := flag_of (ADD_value m instr)]>
              (<[Z.to_nat (Z.land (Z.shiftr instr 9) 0x7) := ADD_value m instr]>
                 (reg m))) m).
Proof.
  intros Hwf. unfold op_ADD. cbv zeta.
  pose proof (field3_bound (Z.shiftr instr 9)) as H0.
  pose proof (field3_bound (Z.shiftr instr 6)) as H1.
  pose proof (field3_bound instr) as H2.
  assert (Hc : forall r, 0 <= r < 8 -> 0 <= r < R_COUNT) by (unfold R_COUNT; lia).
  rewrite immFlag_testbit.
  destruct (Z.testbit instr 5) eqn:Hbit; simpl Z.b2z; cbv iota.
  - change (1 =? 1) with true. cbv iota.
    rewrite signExtend_imm5. unfold shift.
    transitivity ((set_reg (Z.land (Z.shiftr instr 9) 7) (ADD_value m instr) ;;;
                   updateFlags (Z.land (Z.shiftr instr 9) 7)) m).
    + unfold bind at 1 2 3. unfold ret at 1.
      rewrite (get_reg_ok m _ Hwf (Hc _ H1)).
      unfold bind. unfold ADD_value. rewrite Hbit.
      unfold add16, wrap16. change (2 ^ 16) with 65536.
      rewrite Zplus_mod_idemp_r. reflexivity.
    + apply set_then_updateFlags; [exact Hwf | exact H0 |].
      unfold ADD_value. change (2 ^ 16) with 65536. apply wrap16_word.
  - change (0 =? 1) with false. cbv iota.
    transitivity ((set_reg (Z.land (Z.shiftr instr 9) 7) (ADD_value m instr) ;;;
                   updateFlags (Z.land (Z.shiftr instr 9) 7)) m).
    + unfold bind at 1 2 3.
      rewrite (get_reg_ok m _ Hwf (Hc _ H1)).
      rewrite (get_reg_ok m _ Hwf (Hc _ H2)).
      unfold bind. unfold ADD_value. rewrite Hbit. reflexivity.
    + apply set_then_updateFlags; [exact Hwf | exact H0 |].
      unfold ADD_value. change (2 ^ 16) with 65536. apply wrap16_word.
Qed.

(** ** Rules for [triple] and [safe] *)

Section Rules.

Variable strict : bool.

Lemma triple_bind {A B} P (c : M H A) (k : A -> M H B) Q R E :
  triple P c Q E -> (forall a, triple (Q a) (k a) R E) ->
  triple P (x <- c ;; k x) R E.
Proof.
  intros Hc Hk m HP. unfold bind. specialize (Hc m HP).
  destruct (c m) as [a m' | f m']; [| exact Hc].
  exact (Hk a m' Hc).
Qed.

Lemma triple_weaken {A} P (c : M H A) (Q Q' : A -> Machine H -> Prop)
    (E E' : Fault -> Prop) :
  triple P c Q E -> (forall a m, Q a m -> Q' a m) -> (forall f, E f -> E' f) ->
  triple P c Q' E'.
Proof.
  intros Hc HQ HE m HP. specialize (Hc m HP).
  destruct (c m); [apply HQ | apply HE]; exact Hc.
Qed.

Lemma sbind {A B} E (F : A -> Prop) (c : M H A) (k : A -> M H B) R :
  safe strict E F c -> (forall a, F a -> triple (Inv strict) (k a) R E) ->
  triple (Inv strict) (x <- c ;; k x) R E.
Proof.
  intros Hc Hk. eapply triple_bind; [exact Hc |].
  intros a m [HF HI]. exact (Hk a HF m HI).
Qed.

Lemma safe_ret {A} E (F : A -> Prop) (a : A) : F a -> safe (H := H) strict E F (ret a).
Proof. intros HF m HI. simpl. split; assumption. Qed.

Lemma safe_weaken {A} (E E' : Fault -> Prop) (F F' : A -> Prop) (c : M H A) :
  safe strict E F c -> (forall a, F a -> F' a) -> (forall f, E f -> E' f) ->
  safe strict E' F' c.
Proof.
  intros Hc HF HE. eapply triple_weaken; [exact Hc | | exact HE].
  intros a m [Ha HI]. split; [apply HF |]; assumption.
Qed.

Lemma safe_of_triple {A} E (c : M H A) (Q : A -> Machine H -> Prop) :
  triple (Inv strict) c (fun a m => Inv strict m /\ Q a m) E -> safe strict E (fun _ => True) c.
Proof.
  intros Hc. eapply triple_weaken; [exact Hc | | auto].
  intros a m [HI _]. split; [exact I | exact HI].
Qed.

Lemma cond_ok_with_reg m r v :
  0 <= r < 9 -> cond_ok m -> cond_ok (with_reg (<[Z.to_nat r := v]> (reg m)) m).
Proof.
  intros Hr Hc. unfold cond_ok in *. simpl.
  rewrite list_lookup_insert_ne by (unfold R_COND; lia). exact Hc.
Qed.

Lemma Inv_with_reg m r v :
  0 <= r < 9 -> word v -> Inv strict m -> Inv strict (with_reg (<[Z.to_nat r := v]> (reg m)) m).
Proof.
  intros Hr Hv [Hwf Hc]. split; [apply wf_with_reg; assumption |].
  intros Hs. apply cond_ok_with_reg; auto.
Qed.

Lemma Inv_with_memory m i v :
  word v -> Inv strict m -> Inv strict (with_memory (<[i := v]> (memory m)) m).
Proof. intros Hv [Hwf Hc]. split; [apply wf_with_memory; assumption | exact Hc]. Qed.

Lemma Inv_with_host m h : Inv strict m -> Inv strict (with_host h m).
Proof. intros [Hwf Hc]. split; [apply wf_with_host; assumption | exact Hc]. Qed.

Lemma Inv_with_stdout m o : Inv strict m -> Inv strict (with_stdout o m).
Proof. intros [Hwf Hc]. split; [apply wf_with_stdout; assumption | exact Hc]. Qed.

Lemma Inv_with_running m b : Inv strict m -> Inv strict (with_running b m).
Proof. intros [Hwf Hc]. split; [apply wf_with_running; assumption | exact Hc]. Qed.

Lemma safe_get_reg E r : 0 <= r < R_COUNT -> safe (H := H) strict E word (get_reg r).
Proof.
  intros Hr m [Hwf Hc]. rewrite (get_reg_ok m r Hwf Hr).
  split; [apply reg_val_word; assumption | split; assumption].
Qed.

Lemma safe_set_reg E r v :
  0 <= r < 9 -> word v -> safe (H := H) strict E (fun _ => True) (set_reg r v).
Proof.
  intros Hr Hv m HI.
  rewrite set_reg_ok; [| exact (proj1 HI) | unfold R_COUNT; lia].
  split; [exact I | apply Inv_with_reg; assumption].
Qed.

Lemma safe_set_mem E a v :
  word a -> word v -> safe (H := H) strict E (fun _ => True) (set_mem a v).
Proof.
  intros Ha Hv m HI. rewrite (set_mem_ok m a v (proj1 HI) Ha).
  split; [exact I | apply Inv_with_memory; assumption].
Qed.

Lemma safe_get_mem E a : word a -> safe (H := H) strict E word (get_mem a).
Proof.
  intros Ha m HI. destruct (get_mem_ok m a (proj1 HI) Ha) as [v [-> [_ Hv]]].
  split; assumption.
Qed.

Lemma safe_memWrite E a v :
  word a -> word v -> safe (H := H) strict E (fun _ => True) (memWrite a v).
Proof.
  intros Ha Hv m HI. rewrite (memWrite_ok m a v (proj1 HI) Ha).
  split; [exact I | apply Inv_with_memory; assumption].
Qed.

Lemma safe_write_bytes E bs : safe (H := H) strict E (fun _ => True) (write_bytes bs).
Proof. intros m HI. simpl. split; [exact I | apply Inv_with_stdout; exact HI]. Qed.

Lemma safe_on_stdin {A} E (call : H -> option A * H) :
  safe strict E (fun _ => True) (on_stdin call).
Proof.
  intros m HI. unfold on_stdin. destruct (call (host m)) as [r h].
  split; [exact I | apply Inv_with_host; exact HI].
Qed.

Lemma safe_signExtend E x n :
  word x -> 1 <= n -> safe (H := H) strict E word (shift (signExtend x n)).
Proof.
  intros Hx Hn. pose proof (signExtend_unfold x n Hn) as Hy.
  rewrite Hy. apply safe_ret. exact (signExtend_word x n _ Hx Hy).
Qed.

(** [updateFlags] leaves [COND] classifying the register it was given. *)
Lemma updateFlags_classifies E r :
  0 <= r < 9 ->
  triple (H := H) (Inv strict) (updateFlags r) (fun _ m => Inv strict m /\ classifies r m) E.
Proof.
  intros Hr m [Hwf Hc].
  assert (Hr' : 0 <= r < R_COUNT) by (unfold R_COUNT; lia).
  assert (Hlen : (Z.to_nat R_COND < length (reg m))%nat).
  { pose proof (wf_reg_len m Hwf). unfold R_COND, R_COUNT in *. lia. }
  rewrite (updateFlags_ok m r Hwf Hr'). split; [split |].
  - apply wf_with_reg; [exact Hwf | apply flag_of_word].
  - intros _. unfold cond_ok. cbn [reg with_reg].
    rewrite list_lookup_insert_eq by exact Hlen.
    destruct (flag_of_cases (reg_val m r)) as [-> | [-> | ->]]; auto.
  - exists (reg_val m r). cbn [reg with_reg]. split.
    + rewrite list_lookup_insert_ne by (unfold R_COND; lia).
      apply reg_val_lookup; assumption.
    + apply list_lookup_insert_eq. exact Hlen.
Qed.

(** [memRead] on any address: a word, or a failed read of the keyboard. *)
Lemma safe_memRead_kbd a :
  word a ->
  safe (H := H) strict (fun f => f = Panic "couldn't read from I/O") word
    (memRead a).
Proof.
  intros Ha m HI. unfold memRead.
  assert (Hks : word MR_KBSR) by (unfold word, MR_KBSR; lia).
  assert (Hkd : word MR_KBDR) by (unfold word, MR_KBDR; lia).
  assert (Hget : forall m', Inv strict m' ->
    match (if a <=? Z.of_nat (length (memory m')) then get_mem a m'
           else Stop (LogFatal "unhandled cpu memory read at") m') with
    | Ok v m2 => word v /\ Inv strict m2
    | Stop f _ => f = Panic "couldn't read from I/O"
    end).
  { intros m' HI'.
    destruct (Z.leb_spec a (Z.of_nat (length (memory m')))) as [_ | Hgt].
    - exact (safe_get_mem _ a Ha m' HI').
    - rewrite (wf_mem_len m' (proj1 HI')) in Hgt.
      change MEMORY_MAX with 65536 in Hgt. unfold word in Ha. lia. }
  destruct (Z.eqb_spec a MR_KBSR) as [-> | Hne].
  - unfold bind, peekChar, bind, on_stdin, ret.
    destruct (stdin_Peek1 (host m)) as [p h]. destruct p as [b |].
    + simpl. destruct (stdin_ReadByte h) as [r h']. destruct r as [char |].
      * unfold bind.
        rewrite set_mem_ok; [| apply wf_with_host, wf_with_host, HI | exact Hks].
        rewrite set_mem_ok;
          [| apply wf_with_memory; [apply wf_with_host, wf_with_host, HI |
                                    unfold word; cbv; intuition discriminate]
           | exact Hkd].
        apply Hget. apply Inv_with_memory; [apply Z_of_byte_word |].
        apply Inv_with_memory; [unfold word; cbv; intuition discriminate |].
        apply Inv_with_host, Inv_with_host, HI.
      * reflexivity.
    + simpl. rewrite set_mem_ok; [| apply wf_with_host, HI | exact Hks].
      apply Hget. apply Inv_with_memory; [unfold word; lia |].
      apply Inv_with_host, HI.
  - unfold bind, ret. apply Hget. exact HI.
Qed.

Lemma safe_memRead a : word a -> safe (H := H) strict io_fault word (memRead a).
Proof.
  intros Ha. eapply safe_weaken; [apply safe_memRead_kbd; exact Ha | auto |].
  intros f ->. left. reflexivity.
Qed.

(** ** The handlers keep the invariant *)

Lemma field3_count x : 0 <= Z.land x 0x7 < R_COUNT.
Proof. pose proof (field3_bound x). unfold R_COUNT. lia. Qed.

Lemma field3_gpr x : 0 <= Z.land x 0x7 < 9.
Proof. pose proof (field3_bound x). lia. Qed.

Ltac idx :=
  first [ apply field3_count | apply field3_gpr
        | unfold R_R0, R_R7, R_PC, R_COND, R_COUNT; lia ].

Ltac wordy :=
  first [ assumption | apply add16_word | apply not16_word | apply wrap16_word
        | apply land_word; [assumption | unfold word in *; lia]
        | apply land_word; [assumption | lia]
        | unfold word; lia ].

Ltac atom :=
  first [ apply safe_get_reg; idx
        | apply safe_set_reg; [idx | wordy]
        | apply safe_signExtend; [wordy | lia]
        | apply safe_memRead; wordy
        | apply safe_memWrite; wordy
        | apply safe_get_mem; wordy
        | apply safe_write_bytes
        | apply safe_on_stdin
        | apply safe_ret; first [exact I | wordy] ].

Ltac chain :=
  unfold safe;
  repeat (cbv beta;
          lazymatch goal with
          | |- triple _ (bind _ _) _ _ => eapply sbind; [atom | intros ? ?]
          end);
  cbv beta.

Section Handlers.

Variable instr : Z.
Hypothesis Hinstr : word instr.

Abbreviation r0 := (Z.land (Z.shiftr instr 9) 0x7).

Lemma op_ADD_classifies :
  triple (H := H) (Inv strict) (op_ADD instr) (fun _ m => Inv strict m /\ classifies r0 m) io_fault.
Proof.
  unfold op_ADD. cbv zeta.
  eapply sbind; [| intros _ _; apply updateFlags_classifies; idx].
  destruct (_ =? 1); chain; atom.
Qed.

Lemma op_AND_classifies :
  triple (H := H) (Inv strict) (op_AND instr) (fun _ m => Inv strict m /\ classifies r0 m) io_fault.
Proof.
  unfold op_AND. cbv zeta.
  eapply sbind; [| intros _ _; apply updateFlags_classifies; idx].
  destruct (_ =? 0); chain; atom.
Qed.

Lemma op_NOT_classifies :
  triple (H := H) (Inv strict) (op_NOT instr) (fun _ m => Inv strict m /\ classifies r0 m) io_fault.
Proof.
  unfold op_NOT. cbv zeta. chain. apply updateFlags_classifies; idx.
Qed.

Lemma op_LD_classifies :
  triple (H := H) (Inv strict) (op_LD instr) (fun _ m => Inv strict m /\ classifies r0 m) io_fault.
Proof.
  unfold op_LD. cbv zeta. chain. apply updateFlags_classifies; idx.
Qed.

Lemma op_LDI_classifies :
  triple (H := H) (Inv strict) (op_LDI instr) (fun _ m => Inv strict m /\ classifies r0 m) io_fault.
Proof.
  unfold op_LDI. cbv zeta. chain. apply updateFlags_classifies; idx.
Qed.

Lemma op_LDR_classifies :
  triple (H := H) (Inv strict) (op_LDR instr) (fun _ m => Inv strict m /\ classifies r0 m) io_fault.
Proof.
  unfold op_LDR. cbv zeta. chain. apply updateFlags_classifies; idx.
Qed.

Lemma op_LEA_classifies :
  triple (H := H) (Inv strict) (op_LEA instr) (fun _ m => Inv strict m /\ classifies r0 m) io_fault.
Proof.
  unfold op_LEA. cbv zeta. chain. apply updateFlags_classifies; idx.
Qed.

Lemma op_BR_safe : safe (H := H) strict io_fault (fun _ => True) (op_BR instr).
Proof.
  unfold op_BR. cbv zeta. chain. destruct (negb _); chain; atom.
Qed.

Lemma op_JMP_safe : safe (H := H) strict io_fault (fun _ => True) (op_JMP instr).
Proof. unfold op_JMP. cbv zeta. chain. atom. Qed.

Lemma op_JSR_safe : safe (H := H) strict io_fault (fun _ => True) (op_JSR instr).
Proof.
  unfold op_JSR. cbv zeta. chain. destruct (_ =? 0); chain; atom.
Qed.

Lemma op_ST_safe : safe (H := H) strict io_fault (fun _ => True) (op_ST instr).
Proof. unfold op_ST. cbv zeta. chain. atom. Qed.

Lemma op_STI_safe : safe (H := H) strict io_fault (fun _ => True) (op_STI instr).
Proof. unfold op_STI. cbv zeta. chain. atom. Qed.

Lemma op_STR_safe : safe (H := H) strict io_fault (fun _ => True) (op_STR instr).
Proof. unfold op_STR. cbv zeta. chain. atom. Qed.

(** *** Traps *)

Lemma safe_stop {A} (E : Fault -> Prop) (F : A -> Prop) f :
  E f -> safe (H := H) strict E F (stop f).
Proof. intros HE m HI. exact HE. Qed.

Lemma puts_loop_safe fuel : forall address i,
  safe (H := H) strict loop_fault (fun _ => True) (puts_loop fuel address i).
Proof.
  induction fuel as [| fuel IH]; intros address i; simpl.
  - apply safe_stop. right. reflexivity.
  - chain. destruct (negb _); [apply IH | atom].
Qed.

Lemma putsp_loop_safe fuel : forall address i,
  safe (H := H) strict loop_fault (fun _ => True) (putsp_loop fuel address i).
Proof.
  induction fuel as [| fuel IH]; intros address i; simpl.
  - apply safe_stop. right. reflexivity.
  - chain. destruct (_ =? 0); [atom |].
    chain. eapply sbind; [| intros ? ?; apply IH].
    destruct (negb _); atom.
Qed.

Lemma read_char_safe : safe (H := H) strict io_fault word read_char.
Proof.
  unfold read_char. chain.
  destruct a as [char |]; [atom |].
  apply safe_stop. right. reflexivity.
Qed.

Lemma trap_GETC_safe : safe (H := H) strict io_fault (fun _ => True) trap_GETC.
Proof.
  unfold trap_GETC. unfold safe.
  eapply sbind; [apply read_char_safe | intros c Hc].
  chain. eapply safe_of_triple. apply updateFlags_classifies. idx.
Qed.

Lemma trap_IN_safe : safe (H := H) strict io_fault (fun _ => True) trap_IN.
Proof.
  unfold trap_IN, println. chain.
  eapply sbind; [apply read_char_safe | intros c Hc].
  chain. eapply safe_of_triple. apply updateFlags_classifies. idx.
Qed.

Lemma trap_OUT_safe : safe (H := H) strict io_fault (fun _ => True) trap_OUT.
Proof. unfold trap_OUT, putc. chain. atom. Qed.

Lemma trap_HALT_safe : safe (H := H) strict io_fault (fun _ => True) trap_HALT.
Proof.
  unfold trap_HALT, println. chain.
  intros m HI. split; [exact I | apply Inv_with_running; exact HI].
Qed.

Lemma trap_PUTS_safe fuel :
  safe (H := H) strict loop_fault (fun _ => True) (trap_PUTS fuel).
Proof. unfold trap_PUTS. chain. apply puts_loop_safe. Qed.

Lemma trap_PUTSP_safe fuel :
  safe (H := H) strict loop_fault (fun _ => True) (trap_PUTSP fuel).
Proof. unfold trap_PUTSP. chain. apply putsp_loop_safe. Qed.

Lemma io_exec_fault i f : io_fault f -> exec_fault i f.
Proof. intros Hf. left. exact Hf. Qed.

Lemma op_TRAP_safe fuel :
  Z.shiftr instr 12 = OP_TRAP ->
  safe (H := H) strict (exec_fault instr) (fun _ => True) (op_TRAP fuel instr).
Proof.
  intros Hop. unfold op_TRAP. cbv zeta. chain.
  destruct (Z.eqb_spec (Z.land instr 255) TRAP_GETC) as [_ | _].
  { eapply safe_weaken; [apply trap_GETC_safe | auto | apply io_exec_fault]. }
  destruct (Z.eqb_spec (Z.land instr 255) TRAP_OUT) as [_ | _].
  { eapply safe_weaken; [apply trap_OUT_safe | auto | apply io_exec_fault]. }
  destruct (Z.eqb_spec (Z.land instr 255) TRAP_PUTS) as [Hv | _].
  { eapply safe_weaken; [apply trap_PUTS_safe | auto |].
    intros f [Hf | Hf]; [left; exact Hf | right; auto]. }
  destruct (Z.eqb_spec (Z.land instr 255) TRAP_PUTSP) as [Hv | _].
  { eapply safe_weaken; [apply trap_PUTSP_safe | auto |].
    intros f [Hf | Hf]; [left; exact Hf | right; auto]. }
  destruct (Z.eqb_spec (Z.land instr 255) TRAP_IN) as [_ | _].
  { eapply safe_weaken; [apply trap_IN_safe | auto | apply io_exec_fault]. }
  destruct (Z.eqb_spec (Z.land instr 255) TRAP_HALT) as [_ | _].
  { eapply safe_weaken; [apply trap_HALT_safe | auto | apply io_exec_fault]. }
  atom.
Qed.

(** *** The switch *)

Lemma opcode_bound : 0 <= Z.shiftr instr 12 < 16.
Proof.
  destruct Hinstr as [H0 H1]. rewrite Z.shiftr_div_pow2 by lia.
  split; [apply Z.div_pos; lia |].
  apply Z.div_lt_upper_bound; [lia |]. change (2 ^ 12 * 16) with 65536. lia.
Qed.

Ltac by_handler L :=
  eapply triple_weaken;
  [ apply L
  | intros ? ? Hpost; first [ exact Hpost | exact (proj1 Hpost)
                           | exact (proj2 Hpost) ]
  | first [ apply io_exec_fault | auto ] ].

Lemma execute_safe fuel :
  triple (H := H) (Inv strict) (execute fuel instr)
    (fun _ m => Inv strict m) (exec_fault instr).
Proof.
  pose proof opcode_bound as Hop. unfold execute. cbv zeta.
  remember (Z.shiftr instr 12) as op eqn:Eop. unfold dispatch.
  destruct (Z.eqb_spec op OP_ADD); [by_handler op_ADD_classifies |].
  destruct (Z.eqb_spec op OP_AND); [by_handler op_AND_classifies |].
  destruct (Z.eqb_spec op OP_NOT); [by_handler op_NOT_classifies |].
  destruct (Z.eqb_spec op OP_BR); [by_handler op_BR_safe |].
  destruct (Z.eqb_spec op OP_JMP); [by_handler op_JMP_safe |].
  destruct (Z.eqb_spec op OP_JSR); [by_handler op_JSR_safe |].
  destruct (Z.eqb_spec op OP_LD); [by_handler op_LD_classifies |].
  destruct (Z.eqb_spec op OP_LDI); [by_handler op_LDI_classifies |].
  destruct (Z.eqb_spec op OP_LDR); [by_handler op_LDR_classifies |].
  destruct (Z.eqb_spec op OP_LEA); [by_handler op_LEA_classifies |].
  destruct (Z.eqb_spec op OP_ST); [by_handler op_ST_safe |].
  destruct (Z.eqb_spec op OP_STI); [by_handler op_STI_safe |].
  destruct (Z.eqb_spec op OP_STR); [by_handler op_STR_safe |].
  destruct (Z.eqb_spec op OP_TRAP) as [Ht | ?].
  { eapply triple_weaken;
      [apply (op_TRAP_safe fuel); congruence
      | intros ? ? Hpost; exact (proj2 Hpost) | auto]. }
  destruct (Z.eqb_spec op OP_RES); [intros m HI; exact HI |].
  destruct (Z.eqb_spec op OP_RTI); [intros m HI; exact HI |].
  unfold OP_ADD, OP_AND, OP_NOT, OP_BR, OP_JMP, OP_JSR, OP_LD, OP_LDI, OP_LDR,
    OP_LEA, OP_ST, OP_STI, OP_STR, OP_TRAP, OP_RES, OP_RTI in *.
  lia.
Qed.

Lemma execute_classifies fuel :
  sets_flags (Z.shiftr instr 12) = true ->
  triple (H := H) (Inv strict) (execute fuel instr)
    (fun _ m => Inv strict m /\ classifies r0 m) io_fault.
Proof.
  unfold execute, sets_flags. cbv zeta.
  remember (Z.shiftr instr 12) as op eqn:Eop. unfold dispatch. intros Hs.
  destruct (Z.eqb_spec op OP_ADD); [apply op_ADD_classifies |].
  destruct (Z.eqb_spec op OP_AND); [apply op_AND_classifies |].
  destruct (Z.eqb_spec op OP_NOT); [apply op_NOT_classifies |].
  destruct (Z.eqb_spec op OP_BR);
    [subst op; rewrite e in Hs; discriminate Hs |].
  destruct (Z.eqb_spec op OP_JMP);
    [subst op; rewrite e in Hs; discriminate Hs |].
  destruct (Z.eqb_spec op OP_JSR);
    [subst op; rewrite e in Hs; discriminate Hs |].
  destruct (Z.eqb_spec op OP_LD); [apply op_LD_classifies |].
  destruct (Z.eqb_spec op OP_LDI); [apply op_LDI_classifies |].
  destruct (Z.eqb_spec op OP_LDR); [apply op_LDR_classifies |].
  destruct (Z.eqb_spec op OP_LEA); [apply op_LEA_classifies |].
  simpl in Hs. discriminate Hs.
Qed.

End Handlers.

(** *** Fetch and step *)

Lemma fetch_safe : safe (H := H) strict io_fault word fetch.
Proof. unfold fetch. chain. atom. Qed.

Lemma step_safe fuel :
  triple (H := H) (Inv strict) (step fuel) (fun _ m => Inv strict m)
    loop_fault.
Proof.
  unfold step.
  apply sbind with (F := word).
  - apply safe_weaken with (E := io_fault) (F := word);
      [apply fetch_safe | auto | intros f Hf; left; exact Hf].
  - intros instr Hinstr.
    eapply triple_weaken; [apply (execute_safe instr Hinstr fuel) | auto |].
    intros f [Hf | [Hf _]]; [left; exact Hf | right; exact Hf].
Qed.

End Rules.

(** ** The claims about single instructions *)

(** C6. For every well-formed state and every ADD instruction word, the
    handler returns with [DR] set to [R[SR1]] plus the operand (the low five
    bits sign-extended when bit 5 is set, [R[SR2]] otherwise) modulo [2^16],
    and with [COND] set to the flag classifying that value; nothing else
    changes.  In particular, from [R0 = 0], [0x1023] leaves [R0 = 3] and
    [COND = POS], and [0x103F] leaves [R0 = 0xFFFF] and [COND = NEG]. *)
Theorem ADD_sets_DR_and_flags fuel m :
  wf m ->
  (forall instr, Z.shiftr instr 12 = OP_ADD ->
     execute fuel instr m =
     Ok tt (with_reg
              (<[Z.to_nat R_COND := flag_of (ADD_value m instr)]>
                 (<[Z.to_nat (Z.land (Z.shiftr instr 9) 0x7) :=
                      ADD_value m instr]> (reg m))) m)) /\
  (reg_val m R_R0 = 0 ->
     exists m', execute fuel 0x1023 m = Ok tt m' /\
                reg_val m' R_R0 = 3 /\ reg_val m' R_COND = FL_POS) /\
  (reg_val m R_R0 = 0 ->
     exists m', execute fuel 0x103F m = Ok tt m' /\
                reg_val m' R_R0 = 0xFFFF /\ reg_val m' R_COND = FL_NEG).
Proof.
  intros Hwf.
  assert (Hgen : forall instr, Z.shiftr instr 12 = OP_ADD ->
     execute fuel instr m =
     Ok tt (with_reg
              (<[Z.to_nat R_COND := flag_of (ADD_value m instr)]>
                 (<[Z.to_nat (Z.land (Z.shiftr instr 9) 0x7) :=
                      ADD_value m instr]> (reg m))) m)).
  { intros instr Hop. unfold execute. cbv zeta. rewrite Hop, dispatch_ADD.
    apply op_ADD_run. exact Hwf. }
  assert (Hlen : length (reg m) = 10%nat).
  { pose proof (wf_reg_len m Hwf) as Hl. unfold R_COUNT in Hl. lia. }
  split; [exact Hgen |].
  split; intros HR0; eexists; (split; [apply Hgen; reflexivity |]);
    unfold ADD_value; change (Z.land (Z.shiftr _ 6) 7) with R_R0;
    rewrite HR0; unfold reg_val; cbn [reg with_reg];
    destruct (reg m) as [| x0 [| x1 [| x2 [| x3 [| x4 [| x5 [| x6 [| x7
      [| x8 [| x9 [| ? ?]]]]]]]]]]]; try discriminate Hlen;
    split; reflexivity.
Qed.

(** C2 (what the code does). An instruction whose opcode is RTI or RES
    returns normally and leaves the state untouched: the [panic] of the
    [default] case is not reached. *)
Theorem reserved_opcodes_fall_out (fuel : nat) (instr : Z) m :
  Z.shiftr instr 12 = OP_RTI \/ Z.shiftr instr 12 = OP_RES ->
  execute fuel instr m = Ok tt m /\
  execute fuel instr m <> Stop (Panic "bad opcode") m.
Proof.
  intros Hop.
  assert (Hrun : execute fuel instr m = Ok tt m).
  { unfold execute. cbv zeta. destruct Hop as [-> | ->]; reflexivity. }
  split; [exact Hrun |]. rewrite Hrun. discriminate.
Qed.

(** ** The execution loop *)

Lemma reachable_Inv m : reachable m -> Inv true m.
Proof.
  induction 1 as [m Hwf Hc | m fuel m' _ IH _ Hstep].
  - split; [exact Hwf |]. intros _. right. left. exact Hc.
  - pose proof (step_safe true fuel m IH) as Hs. rewrite Hstep in Hs. exact Hs.
Qed.

(** C7. In every state of the execution loop [COND] holds one of the three
    flags [POS = 0x1], [ZRO = 0x2], [NEG = 0x4]; it still does after any
    further instruction; and after an instruction with a flag-setting opcode (ADD, AND, NOT, LD, LDI, LDR,
    LEA) the flag is the one that classifies the value now in [DR]: ZRO if
    it is zero, NEG if its bit 15 is set, POS otherwise. *)
Theorem COND_holds_one_flag m :
  reachable m ->
  (FL_POS = 0x1 /\ FL_ZRO = 0x2 /\ FL_NEG = 0x4) /\
  cond_ok m /\
  (forall fuel m', step fuel m = Ok tt m' -> cond_ok m') /\
  (forall fuel instr m1 m',
     fetch m = Ok instr m1 -> execute fuel instr m1 = Ok tt m' ->
     sets_flags (Z.shiftr instr 12) = true ->
     classifies (Z.land (Z.shiftr instr 9) 0x7) m').
Proof.
  intros Hr. pose proof (reachable_Inv m Hr) as HI.
  split; [repeat split |].
  split; [exact (proj2 HI eq_refl) |]. split.
  - intros fuel m' Hstep.
    pose proof (step_safe true fuel m HI) as Hs. rewrite Hstep in Hs.
    exact (proj2 Hs eq_refl).
  - intros fuel instr m1 m' Hf He Hop.
    pose proof (fetch_safe true m HI) as Hs. rewrite Hf in Hs.
    destruct Hs as [Hw HI1].
    pose proof (execute_classifies true instr Hw fuel Hop m1 HI1) as Hc.
    rewrite He in Hc. exact (proj2 Hc).
Qed.



(** ** The string traps *)

Lemma add16_step a i j : add16 a (add16 i 1 + j) = add16 a (i + (1 + j)).
Proof.
  unfold add16, wrap16.
  replace (a + ((i + 1) mod 65536 + j)) with ((i + 1) mod 65536 + (a + j)) by lia.
  rewrite Z.add_mod_idemp_l by lia. f_equal. lia.
Qed.

Lemma add16_succ a i : add16 (add16 a i) 1 = add16 a (add16 i 1).
Proof.
  unfold add16, wrap16.
  rewrite Z.add_mod_idemp_l by lia. rewrite Z.add_mod_idemp_r by lia.
  f_equal. lia.
Qed.

Lemma land_FFFF w : word w -> Z.land w 0xFFFF = w.
Proof.
  intros Hw. change 0xFFFF with (Z.ones 16). rewrite Z.land_ones by lia.
  apply Z.mod_small. exact Hw.
Qed.

Lemma get_mem_lookup m a w :
  wf m -> word a -> memory m !! Z.to_nat a = Some w -> get_mem a m = Ok w m.
Proof.
  intros Hwf Ha Hl. destruct (get_mem_ok m a Hwf Ha) as [v [-> [Hv _]]].
  congruence.
Qed.

(** What PUTS does when the first zero word is [k] words after the start:
    it writes the [k] characters before it and then the zero character
    itself. *)
Lemma puts_loop_run k : forall fuel address i m,
  wf m -> (k < fuel)%nat ->
  (forall j, (j < k)%nat ->
     memory m !! Z.to_nat (add16 address (i + Z.of_nat j)) <> Some 0) ->
  memory m !! Z.to_nat (add16 address (i + Z.of_nat k)) = Some 0 ->
  puts_loop fuel address i m =
  Ok tt (with_stdout
           (stdout m ++
            chars_bytes (PUTS_spec_chars (S k) (memory m) (add16 address i)) ++
            [0]) m).
Proof.
  induction k as [| k IH]; intros fuel address i m Hwf Hfuel Hnz Hz;
    (destruct fuel as [| fuel]; [lia |]).
  - rewrite Z.add_0_r in Hz. simpl puts_loop. unfold bind.
    rewrite (get_mem_lookup m _ 0 Hwf (add16_word _ _) Hz).
    simpl PUTS_spec_chars. unfold index.
    destruct (Z.ltb_spec (add16 address i) 0) as [Hneg | _];
      [pose proof (add16_word address i) as Hw; unfold word in Hw; lia |].
    rewrite Hz. reflexivity.
  - destruct (get_mem_ok m (add16 address i) Hwf (add16_word _ _))
      as [w [Hg [Hl Hw]]].
    assert (Hw0 : w <> 0).
    { intros ->. apply (Hnz 0%nat); [lia |]. rewrite Z.add_0_r. exact Hl. }
    simpl puts_loop. unfold bind. rewrite Hg.
    rewrite (land_FFFF w Hw).
    unfold putc, write_bytes.
    destruct (Z.eqb_spec w 0) as [? | _]; [contradiction |]. cbn [negb].
    rewrite (IH fuel address (add16 i 1)).
    + cbn [stdout memory with_stdout].
      change (PUTS_spec_chars (S (S k)) (memory m) (add16 address i)) with
        (match index (memory m) (add16 address i) with
         | Some w => if w =? 0 then []
                     else w :: PUTS_spec_chars (S k) (memory m)
                                 (add16 (add16 address i) 1)
         | None => []
         end).
      unfold index.
      destruct (Z.ltb_spec (add16 address i) 0) as [Hneg | _];
        [pose proof (add16_word address i) as Hw'; unfold word in Hw'; lia |].
      rewrite Hl.
      destruct (Z.eqb_spec w 0) as [? | _]; [contradiction |].
      rewrite add16_succ. unfold chars_bytes. cbn [flat_map].
      rewrite <- !app_assoc. reflexivity.
    + apply wf_with_stdout. exact Hwf.
    + lia.
    + intros j Hj. rewrite add16_step.
      replace (i + (1 + Z.of_nat j)) with (i + Z.of_nat (S j)) by lia.
      apply Hnz. lia.
    + rewrite add16_step.
      replace (i + (1 + Z.of_nat k)) with (i + Z.of_nat (S k)) by lia.
      exact Hz.
Qed.

(** PUTS returns as soon as some word of the memory is zero and the fuel
    covers one pass over the memory. *)
Lemma puts_loop_returns k : forall fuel address i m,
  wf m -> (k < fuel)%nat ->
  memory m !! Z.to_nat (add16 address (i + Z.of_nat k)) = Some 0 ->
  exists m', puts_loop fuel address i m = Ok tt m'.
Proof.
  induction k as [| k IH]; intros fuel address i m Hwf Hfuel Hz;
    (destruct fuel as [| fuel]; [lia |]).
  - rewrite Z.add_0_r in Hz. simpl puts_loop. unfold bind.
    rewrite (get_mem_lookup m _ 0 Hwf (add16_word _ _) Hz).
    eexists. reflexivity.
  - destruct (get_mem_ok m (add16 address i) Hwf (add16_word _ _))
      as [w [Hg [Hl Hw]]].
    simpl puts_loop. unfold bind. rewrite Hg.
    unfold putc, write_bytes.
    destruct (negb _); [| eexists; reflexivity].
    apply (IH fuel address (add16 i 1)).
    + apply wf_with_stdout. exact Hwf.
    + lia.
    + rewrite add16_step.
      replace (i + (1 + Z.of_nat k)) with (i + Z.of_nat (S k)) by lia.
      exact Hz.
Qed.

Lemma trap_PUTS_returns fuel m a :
  wf m -> word a -> memory m !! Z.to_nat a = Some 0 ->
  (Z.to_nat 65536 <= fuel)%nat ->
  exists m', trap_PUTS fuel m = Ok tt m'.
Proof.
  intros Hwf Ha Hz Hfuel. unfold trap_PUTS, bind.
  rewrite (get_reg_ok m R_R0 Hwf ltac:(unfold R_R0, R_COUNT; lia)).
  set (r := reg_val m R_R0).
  apply (puts_loop_returns (Z.to_nat ((a - r) mod 65536))); [exact Hwf | |].
  - pose proof (Z.mod_pos_bound (a - r) 65536 ltac:(lia)). lia.
  - rewrite Z2Nat.id by (apply Z.mod_pos_bound; lia).
    unfold add16, wrap16. rewrite Z.add_0_l.
    rewrite Z.add_mod_idemp_r by lia.
    replace (r + (a - r)) with a by lia.
    rewrite Z.mod_small by exact Ha. exact Hz.
Qed.

(** One iteration of PUTSP on a non-zero word moves the index on by two:
    the word after it is never read. *)
Lemma putsp_loop_skips fuel address i m w :
  wf m -> memory m !! Z.to_nat (add16 address i) = Some w -> w <> 0 ->
  putsp_loop (S fuel) address i m =
  putsp_loop fuel address (add16 (add16 i 1) 1)
    (with_stdout
       (stdout m ++ utf8_encode (Z.land w 0xFF) ++
        (if Z.shiftr w 8 =? 0 then [] else utf8_encode (Z.shiftr w 8))) m).
Proof.
  intros Hwf Hl Hw. simpl putsp_loop. unfold bind.
  rewrite (get_mem_lookup m _ w Hwf (add16_word _ _) Hl).
  destruct (Z.eqb_spec w 0) as [? | _]; [contradiction |].
  unfold putc, write_bytes.
  destruct (Z.shiftr w 8 =? 0); cbn [negb]; unfold ret;
    cbn [stdout with_stdout]; rewrite <- ?app_assoc, ?app_nil_r; reflexivity.
Qed.

Lemma add16_step2 a i j :
  add16 a (add16 (add16 i 1) 1 + 2 * j) = add16 a (i + 2 * (1 + j)).
Proof.
  unfold add16, wrap16.
  rewrite (Z.add_mod_idemp_l (i + 1) 1) by lia.
  replace (a + ((i + 1 + 1) mod 65536 + 2 * j))
    with ((i + 1 + 1) mod 65536 + (a + 2 * j)) by lia.
  rewrite Z.add_mod_idemp_l by lia. f_equal. lia.
Qed.

(** PUTSP returns as soon as one of the words it visits, every second word
    from the start, is zero. *)
Lemma putsp_loop_returns k : forall fuel address i m,
  wf m -> (k < fuel)%nat ->
  memory m !! Z.to_nat (add16 address (i + 2 * Z.of_nat k)) = Some 0 ->
  exists m', putsp_loop fuel address i m = Ok tt m'.
Proof.
  induction k as [| k IH]; intros fuel address i m Hwf Hfuel Hz;
    (destruct fuel as [| fuel]; [lia |]).
  - change (2 * Z.of_nat 0) with 0 in Hz. rewrite Z.add_0_r in Hz.
    simpl putsp_loop. unfold bind.
    rewrite (get_mem_lookup m _ 0 Hwf (add16_word _ _) Hz).
    eexists. reflexivity.
  - destruct (get_mem_ok m (add16 address i) Hwf (add16_word _ _))
      as [w [Hg [Hl Hw]]].
    destruct (Z.eq_dec w 0) as [-> | Hw0].
    + simpl putsp_loop. unfold bind. rewrite Hg. eexists. reflexivity.
    + rewrite (putsp_loop_skips fuel address i m w Hwf Hl Hw0).
      apply IH.
      * apply wf_with_stdout. exact Hwf.
      * lia.
      * rewrite add16_step2.
        replace (i + 2 * (1 + Z.of_nat k)) with (i + 2 * Z.of_nat (S k)) by lia.
        exact Hz.
Qed.

Lemma trap_PUTSP_returns fuel m k :
  wf m -> 0 <= k < 32768 ->
  memory m !! Z.to_nat (add16 (reg_val m R_R0) (2 * k)) = Some 0 ->
  (Z.to_nat 32768 <= fuel)%nat ->
  exists m', trap_PUTSP fuel m = Ok tt m'.
Proof.
  intros Hwf Hk Hz Hfuel. unfold trap_PUTSP, bind.
  rewrite (get_reg_ok m R_R0 Hwf ltac:(unfold R_R0, R_COUNT; lia)).
  apply (putsp_loop_returns (Z.to_nat k)); [exact Hwf | lia |].
  rewrite Z2Nat.id by lia. rewrite Z.add_0_l. exact Hz.
Qed.

(** The prologue of TRAP: [reg[R_R7] = reg[R_PC]]. *)
Lemma op_TRAP_run fuel instr m :
  wf m ->
  op_TRAP fuel instr m =
  (let vect := Z.land instr 0xFF in
   if vect =? TRAP_GETC then trap_GETC
   else if vect =? TRAP_OUT then trap_OUT
   else if vect =? TRAP_PUTS then trap_PUTS fuel
   else if vect =? TRAP_PUTSP then trap_PUTSP fuel
   else if vect =? TRAP_IN then trap_IN
   else if vect =? TRAP_HALT then trap_HALT
   else ret tt)
    (with_reg (<[Z.to_nat R_R7 := reg_val m R_PC]> (reg m)) m).
Proof.
  intros Hwf. unfold op_TRAP, bind.
  rewrite (get_reg_ok m R_PC Hwf ltac:(unfold R_PC, R_COUNT; lia)).
  rewrite (set_reg_ok m R_R7 _ Hwf ltac:(unfold R_R7, R_COUNT; lia)).
  reflexivity.
Qed.

(** C10. From any well-formed state and for any of the [2^16] instruction
    words: [memRead] returns a word for every address, unless the keyboard
    read fails; [memWrite] succeeds for every address; the three register
    fields of the word are below [R_COUNT]; and [execute] returns a
    well-formed state or stops with a fault of the host, or of the fuel in
    PUTS and PUTSP, never with an index out of range, a negative shift or
    a [log.Fatal].  The two string traps return too once the fuel covers
    the memory and the string ends: for PUTS when some word of the memory
    is zero, for PUTSP when one of the words it visits is. *)
Theorem accesses_in_bounds (fuel : nat) (instr : Z) m :
  wf m -> word instr ->
  (forall a, word a ->
     match memRead a m with
     | Ok v m' => word v /\ wf m'
     | Stop f _ => f = Panic "couldn't read from I/O"
     end) /\
  (forall a v, word a -> word v -> exists m', memWrite a v m = Ok tt m' /\ wf m') /\
  (0 <= Z.land (Z.shiftr instr 9) 0x7 < R_COUNT /\
   0 <= Z.land (Z.shiftr instr 6) 0x7 < R_COUNT /\
   0 <= Z.land instr 0x7 < R_COUNT) /\
  match execute fuel instr m with
  | Ok _ m' => wf m'
  | Stop f _ =>
      exec_fault instr f /\ f <> IndexOutOfRange /\ f <> NegativeShift /\
      (forall msg, f <> LogFatal msg)
  end /\
  (Z.shiftr instr 12 = OP_TRAP -> Z.land instr 0xFF = TRAP_PUTS ->
   (Z.to_nat 65536 <= fuel)%nat ->
   (exists a, word a /\ memory m !! Z.to_nat a = Some 0) ->
   exists m', execute fuel instr m = Ok tt m') /\
  (Z.shiftr instr 12 = OP_TRAP -> Z.land instr 0xFF = TRAP_PUTSP ->
   (Z.to_nat 32768 <= fuel)%nat ->
   (exists k, 0 <= k < 32768 /\
      memory m !! Z.to_nat (add16 (reg_val m R_R0) (2 * k)) = Some 0) ->
   exists m', execute fuel instr m = Ok tt m').
Proof.
  intros Hwf Hinstr.
  assert (HI : Inv false m) by (split; [exact Hwf | discriminate]).
  assert (Hwf7 : wf (with_reg (<[Z.to_nat R_R7 := reg_val m R_PC]> (reg m)) m)).
  { apply wf_with_reg; [exact Hwf |].
    apply reg_val_word; [exact Hwf | unfold R_PC, R_COUNT; lia]. }
  split; [| split; [| split; [| split; [| split]]]].
  - intros a Ha. pose proof (safe_memRead_kbd false a Ha m HI) as Hs.
    destruct (memRead a m) as [v m' | f m'].
    + split; [exact (proj1 Hs) | exact (proj1 (proj2 Hs))].
    + exact Hs.
  - intros a v Ha Hv. eexists. split; [apply memWrite_ok; assumption |].
    apply wf_with_memory; assumption.
  - repeat split; apply field3_count.
  - pose proof (execute_safe false instr Hinstr fuel m HI) as Hs.
    destruct (execute fuel instr m) as [[] m' | f m']; [exact (proj1 Hs) |].
    split; [exact Hs |].
    destruct Hs as [[-> | ->] | [-> _]]; repeat split; try discriminate.
  - intros Hop Hv Hfuel [a [Ha Hz]]. unfold execute. cbv zeta.
    rewrite Hop. change (dispatch fuel OP_TRAP instr) with (op_TRAP fuel instr).
    rewrite (op_TRAP_run fuel instr m Hwf). cbv zeta. rewrite Hv.
    change (exists m', trap_PUTS fuel
      (with_reg (<[Z.to_nat R_R7 := reg_val m R_PC]> (reg m)) m) = Ok tt m').
    apply (trap_PUTS_returns fuel _ a); assumption.
  - intros Hop Hv Hfuel [k [Hk Hz]]. unfold execute. cbv zeta.
    rewrite Hop. change (dispatch fuel OP_TRAP instr) with (op_TRAP fuel instr).
    rewrite (op_TRAP_run fuel instr m Hwf). cbv zeta. rewrite Hv.
    change (exists m', trap_PUTSP fuel
      (with_reg (<[Z.to_nat R_R7 := reg_val m R_PC]> (reg m)) m) = Ok tt m').
    apply (trap_PUTSP_returns fuel _ k); [exact Hwf7 | exact Hk | | exact Hfuel].
    rewrite reg_val_insert_ne by (unfold R_R7, R_R0; lia). exact Hz.
Qed.

End MachineFacts.

(** ** The image loader *)

Lemma be16_word hi lo : word (be16 hi lo).
Proof.
  unfold be16. apply lor_word; [apply Z_of_byte_word |].
  pose proof (Z_of_byte_bound hi) as Hh. rewrite Z.shiftl_mul_pow2 by lia.
  unfold word. change (2 ^ 8) with 256. lia.
Qed.

Lemma binary_Read_uint16_word buffer : word (fst (binary_Read_uint16 buffer)).
Proof.
  destruct buffer as [| hi [| lo rest]]; cbn [binary_Read_uint16 fst];
    [exact word_0 | exact word_0 | apply be16_word].
Qed.

(** The words read from the bytes of [ws] followed by padding zeros are
    the words of [ws], and zero afterwards. *)
Lemma buffer_word_words ws : forall k pad,
  buffer_word k (words_bytes ws ++ replicate pad x00) =
  match ws !! k with
  | Some p => be16 (fst p) (snd p)
  | None => 0
  end.
Proof.
  induction ws as [| p ws IH]; intros k pad.
  - cbn [words_bytes flat_map app]. rewrite lookup_nil.
    revert pad. induction k as [| k IHk]; intros pad.
    + destruct pad as [| [| pad]]; reflexivity.
    + destruct pad as [| [| pad]]; cbn [buffer_word replicate binary_Read_uint16 snd].
      * apply (IHk 0%nat).
      * apply (IHk 0%nat).
      * apply (IHk pad).
  - destruct k as [| k]; cbn [words_bytes flat_map app buffer_word
                               binary_Read_uint16 fst snd lookup list_lookup].
    + reflexivity.
    + apply IH.
Qed.

(** The two reads of [readImage]: the header, then the rest of the file
    into a buffer as long as the whole file. *)
Lemma file_Read_header hi lo data :
  file_Read 2 (hi :: lo :: data) = Some ([hi; lo], data).
Proof. reflexivity. Qed.

Lemma file_Read_all data :
  data <> [] ->
  file_Read (S (S (length data))) data = Some (data ++ replicate 2 x00, []).
Proof.
  intros Hne. destruct data as [| d rest]; [contradiction |].
  unfold file_Read.
  rewrite take_ge by lia. rewrite drop_ge by lia.
  replace (S (S (length (d :: rest))) - length (d :: rest))%nat with 2%nat by lia.
  reflexivity.
Qed.

Section Loader.

Context {H : Type} `{HostOps : Host H}.
Implicit Types (m : Machine H).

(** The loading loop from address [i]: it returns, writes to every address
    from [i] to [0xFFFE] the next word the buffer yields (zero once the
    buffer is empty), and leaves the addresses below [i] and the address
    [0xFFFF] as they were. *)
Lemma readImage_loop_run n : forall i buffer m,
  wf m -> 0 <= i <= MaxUint16 -> (Z.to_nat (MaxUint16 - i) <= n)%nat ->
  exists mem',
    readImage_loop n i buffer m = Ok tt (with_memory mem' m) /\
    wf (with_memory mem' m) /\
    (forall j, 0 <= j < i \/ j = MaxUint16 ->
       mem' !! Z.to_nat j = memory m !! Z.to_nat j) /\
    (forall k, i + Z.of_nat k < MaxUint16 ->
       mem' !! Z.to_nat (i + Z.of_nat k) = Some (buffer_word k buffer)).
Proof.
  unfold MaxUint16.
  induction n as [| n IH]; intros i buffer m Hwf Hi Hn.
  - assert (i = 65535) as -> by lia. exists (memory m).
    cbn [readImage_loop]. unfold MaxUint16. rewrite Z.ltb_irrefl.
    destruct m; repeat split; try apply Hwf; try reflexivity.
    intros k Hk. lia.
  - cbn [readImage_loop]. unfold MaxUint16.
    destruct (Z.ltb_spec i 65535) as [Hlt | Hge].
    + destruct (binary_Read_uint16 buffer) as [val buffer'] eqn:Hread.
      assert (Hval : word val).
      { pose proof (binary_Read_uint16_word buffer) as Hw.
        rewrite Hread in Hw. exact Hw. }
      assert (Hiw : word i) by (unfold word; lia).
      unfold bind. rewrite (set_mem_ok m i val Hwf Hiw).
      assert (Hnext : add16 i 1 = i + 1).
      { unfold add16, wrap16. apply Z.mod_small. lia. }
      rewrite Hnext.
      destruct (IH (i + 1) buffer'
                  (with_memory (<[Z.to_nat i := val]> (memory m)) m))
        as [mem' [Hrun [Hwf' [Hsame Hnew]]]];
        [apply wf_with_memory; assumption | lia | lia |].
      exists mem'. cbn [with_memory memory reg running host stdout opened] in *.
      split; [exact Hrun |]. split; [exact Hwf' |]. split.
      * intros j Hj. rewrite Hsame by lia.
        apply list_lookup_insert_ne. lia.
      * intros k Hk. destruct k as [| k].
        { rewrite Z.add_0_r. rewrite Hsame by lia.
          cbn [buffer_word]. rewrite Hread. cbn [fst].
          apply list_lookup_insert_eq.
          pose proof (wf_mem_len m Hwf) as Hlen.
          change MEMORY_MAX with 65536 in Hlen. lia. }
        { replace (i + Z.of_nat (S k)) with (i + 1 + Z.of_nat k) by lia.
          rewrite Hnew by lia. cbn [buffer_word]. rewrite Hread. reflexivity. }
    + assert (i = 65535) as -> by lia. exists (memory m).
      destruct m; repeat split; try apply Hwf; try reflexivity.
      intros k Hk. lia.
Qed.

(** X26. Loading an image with at least one data word: [readImage]
    returns true; every data word whose address is below [0xFFFF] is in
    its place; every address after the data and below [0xFFFF] holds zero;
    the addresses below the origin and the address [0xFFFF] are
    untouched. *)
Lemma readImage_run path m hi lo p ws :
  wf m ->
  os_Open (host m) path = Some (image_bytes (hi, lo) (p :: ws)) ->
  exists mem',
    readImage path m =
      Ok true (with_memory mem' (with_opened (opened m ++ [path]) m)) /\
    (forall i q, (p :: ws) !! i = Some q ->
       be16 hi lo + Z.of_nat i < MaxUint16 ->
       mem' !! Z.to_nat (be16 hi lo + Z.of_nat i) = Some (be16 (fst q) (snd q))) /\
    (forall j, be16 hi lo + Z.of_nat (length (p :: ws)) <= j < MaxUint16 ->
       mem' !! Z.to_nat j = Some 0) /\
    (forall j, 0 <= j < be16 hi lo \/ j = MaxUint16 ->
       mem' !! Z.to_nat j = memory m !! Z.to_nat j).
Proof.
  intros Hwf Hopen. unfold readImage. cbn [host with_opened]. rewrite Hopen.
  unfold image_bytes. cbn [fst snd].
  set (data := words_bytes (p :: ws)).
  assert (Hne : data <> []) by (unfold data; discriminate).
  rewrite file_Read_header. cbn [length].
  rewrite (file_Read_all data Hne).
  pose proof (be16_word hi lo) as Ho. unfold word in Ho.
  set (m0 := with_opened (opened m ++ [path]) m).
  assert (Hwf0 : wf m0) by (destruct Hwf; split; assumption).
  destruct (readImage_loop_run (Z.to_nat MaxUint16) (be16 hi lo)
              (data ++ replicate 2 x00) m0 Hwf0)
    as [mem' [Hrun [_ [Hsame Hnew]]]];
    [unfold MaxUint16; lia | unfold MaxUint16; lia |].
  exists mem'. unfold bind. fold m0. rewrite Hrun.
  split; [reflexivity |]. split; [| split].
  - intros i q Hq Hi. rewrite (Hnew i Hi). unfold data.
    rewrite buffer_word_words, Hq. reflexivity.
  - intros j Hj.
    replace j with (be16 hi lo + Z.of_nat (Z.to_nat (j - be16 hi lo))) by lia.
    rewrite Hnew by lia. unfold data. rewrite buffer_word_words.
    rewrite lookup_ge_None_2; [reflexivity | cbn [length]; lia].
  - intros j Hj. apply (Hsame j Hj).
Qed.

(** An image that consists of the origin alone is reported as a failed
    load: the second [file.Read] meets the end of the file. *)
Lemma readImage_origin_only path m hi lo :
  os_Open (host m) path = Some (image_bytes (hi, lo) []) ->
  readImage path m = Ok false (with_opened (opened m ++ [path]) m).
Proof.
  intros Hopen. unfold readImage. cbn [host with_opened]. rewrite Hopen.
  reflexivity.
Qed.

End Loader.

(** ** The command line *)

Section CommandLine.

Context {H : Type} `{HostOps : Host H}.
Implicit Types (m : Machine H).

(** X28. With no argument after the program's name, [main] prints the usage
    line and exits with code 2. *)
Lemma main_usage (args : list string) n fuel m :
  (length args < 2)%nat ->
  main args n fuel m =
  Stop (Exit 2)
    (with_stdout (stdout m ++ bytes_of_string "lc3 [image-file1] ..." ++ [10]) m).
Proof.
  intros Hlen. unfold main, bind.
  destruct (Z.ltb_spec (Z.of_nat (length args)) 2) as [_ | Hge]; [| lia].
  reflexivity.
Qed.

(** A path that cannot be opened makes [readImage] return false. *)
Lemma readImage_missing path m :
  os_Open (host m) path = None ->
  readImage path m = Ok false (with_opened (opened m ++ [path]) m).
Proof. intros Hno. unfold readImage. cbn [host with_opened]. rewrite Hno. reflexivity. Qed.

(** The loading loop starts at [os.Args[0]]: when the program's own name
    is not a file that can be opened, [main] reports it as an image that
    failed to load and exits with code 1, whatever the image arguments. *)
Lemma main_opens_program_name (a0 a1 : string) (rest : list string) n fuel m :
  os_Open (host m) a0 = None ->
  main (a0 :: a1 :: rest) n fuel m =
  Stop (Exit 1)
    (with_stdout (stdout m ++ bytes_of_string ("failed to load image: " ++ a0))
       (with_opened (opened m ++ [a0]) m)).
Proof.
  intros Hno. unfold main, bind. cbn [length].
  destruct (Z.ltb_spec (Z.of_nat (S (S (length rest)))) 2) as [Hlt | _]; [lia |].
  unfold ret. cbn [load_images]. unfold bind.
  rewrite (readImage_missing a0 m Hno). reflexivity.
Qed.

End CommandLine.

(** ** Concrete runs *)

Ltac run_both :=
  repeat match goal with |- _ /\ _ => split end; vm_compute; reflexivity.

Lemma poke_length ws : forall a mem, length (poke a ws mem) = length mem.
Proof.
  induction ws as [| w ws IH]; intros a mem; simpl; [reflexivity |].
  rewrite IH. apply length_insert.
Qed.

Lemma poke_words ws : forall a mem,
  Forall word ws -> Forall word mem -> Forall word (poke a ws mem).
Proof.
  induction ws as [| w ws IH]; intros a mem Hws Hmem; simpl; [exact Hmem |].
  inversion Hws; subst. apply IH; [assumption |].
  apply Forall_insert; assumption.
Qed.

Lemma of_to_nat_MEMORY_MAX : Z.of_nat (Z.to_nat MEMORY_MAX) = MEMORY_MAX.
Proof. apply Z2Nat.id. discriminate. Qed.

Lemma wf_boot {H} (h : H) : wf (boot h).
Proof.
  split; cbn [memory reg boot].
  - rewrite length_replicate. exact of_to_nat_MEMORY_MAX.
  - apply Forall_replicate. exact word_0.
  - rewrite length_replicate. reflexivity.
  - apply Forall_replicate. exact word_0.
Qed.

Lemma wf_regs {H} (m : Machine H) (rs : list Z) :
  wf m -> length rs = 10%nat -> Forall word rs -> wf (with_reg rs m).
Proof.
  intros [H1 H2 H3 H4] Hl Hw. split; cbn [memory reg with_reg]; try assumption.
  rewrite Hl. reflexivity.
Qed.

Lemma wf_started {H} (h : H) a ws : Forall word ws -> wf (started h a ws).
Proof.
  intros Hws. split; cbn [memory reg started].
  - rewrite poke_length, length_replicate. exact of_to_nat_MEMORY_MAX.
  - apply poke_words; [exact Hws |]. apply Forall_replicate. exact word_0.
  - reflexivity.
  - repeat constructor; unfold word; cbv; intuition discriminate.
Qed.

Lemma wf_add_program : wf add_program.
Proof.
  apply wf_started. repeat constructor; unfold word; lia.
Qed.

Lemma wf_hi_machine : wf hi_machine.
Proof.
  apply wf_regs; [apply wf_started | reflexivity |];
    repeat constructor; unfold word; cbv; intuition discriminate.
Qed.

(** C1 (the failing input). With [R0 = 0x4000] and the words ["He"],
    ["ll"], ["o"], [0] from [0x4000] on, [TRAP 0x24] returns having written
    the three bytes "Heo": the second word is skipped, because the index
    advances by two per iteration.  The specification's PUTSP writes
    "Hello". *)
Theorem PUTSP_skips_every_other_word :
  returned (execute (Z.to_nat 65536) 0xF024 hello_packed) = Some tt /\
  stdout (final (execute (Z.to_nat 65536) 0xF024 hello_packed)) =
    bytes_of_string "Heo" /\
  chars_bytes (PUTSP_spec_chars (Z.to_nat 65536) (memory hello_packed) 0x4000) =
    bytes_of_string "Hello".
Proof. run_both. Qed.

(** C4 (the failing input). With [R0 = 0x4000] and the words ['H'], ['i'],
    ['!'], [0] from [0x4000] on, [TRAP 0x22] returns having written four
    bytes, "Hi!" and then a zero byte: the loop tests for the terminator
    after it has written it.  The specification's PUTS writes the three
    bytes "Hi!". *)
Theorem PUTS_writes_the_terminator :
  returned (execute (Z.to_nat 65536) 0xF022 hi_machine) = Some tt /\
  stdout (final (execute (Z.to_nat 65536) 0xF022 hi_machine)) =
    [0x48; 0x69; 0x21; 0] /\
  chars_bytes (PUTS_spec_chars (Z.to_nat 65536) (memory hi_machine) 0x4000) =
    [0x48; 0x69; 0x21] /\
  bytes_of_string "Hi!" = [0x48; 0x69; 0x21].
Proof. run_both. Qed.

(** C3 (the failing inputs). Loading the image with origin [0xFFF0] and the
    single word [0xABCD] into a memory that holds [0xBEEF] at [0xFFF2]
    writes the word at [0xFFF0] and then zeroes [0xFFF2], a cell past the
    file's data.  Loading the image with origin [0xFFFF] and the single
    word [0x1234] succeeds and leaves [0xFFFF] as it was: the loop stops
    before that address. *)
Theorem readImage_zeroes_past_the_data :
  memory loaded_before !! Z.to_nat 0xFFF2 = Some 0xBEEF /\
  returned (readImage "high.obj" loaded_before) = Some true /\
  memory (final (readImage "high.obj" loaded_before)) !! Z.to_nat 0xFFF0 =
    Some 0xABCD /\
  memory (final (readImage "high.obj" loaded_before)) !! Z.to_nat 0xFFF2 =
    Some 0 /\
  returned (readImage "last.obj" loaded_before) = Some true /\
  memory (final (readImage "last.obj" loaded_before)) !! Z.to_nat 0xFFFF =
    Some 0.
Proof. run_both. Qed.

(** C5 (the failing input). Started as [lc3 prog.obj] where [prog.obj] is
    a readable image and there is no file [lc3], the program opens [lc3]
    first, reports it as an image that failed to load and exits with code
    1; [prog.obj] is never opened. *)
Theorem main_loads_its_own_name (n fuel : nat) :
  os_Open prog_dir "prog.obj" = Some [x30; x00; xf0; x25] /\
  main ["lc3"%string; "prog.obj"%string] n fuel (boot prog_dir) =
    Stop (Exit 1)
      (with_stdout (bytes_of_string "failed to load image: lc3")
         (with_opened ["lc3"%string] (boot prog_dir))).
Proof.
  split; [reflexivity |].
  rewrite main_opens_program_name by reflexivity. reflexivity.
Qed.

(** ** Instances of the general theorems *)

Lemma signExtend_idempotent_witness :
  word 0x1F /\ 1 <= 5 /\
  exists y, signExtend 0x1F 5 = Some y /\ signExtend y 5 = Some y.
Proof.
  assert (Hw : word 0x1F) by (unfold word; lia).
  assert (Hn : 1 <= 5) by lia.
  split; [exact Hw |]. split; [exact Hn |].
  exact (signExtend_idempotent 0x1F 5 Hw Hn).
Defined.

Lemma memWrite_memRead_witness :
  wf add_program /\ word 0x4000 /\ word 0x1234 /\
  0x4000 <> MR_KBSR /\ 0x4000 <> MR_KBDR /\
  exists m', memWrite 0x4000 0x1234 add_program = Ok tt m' /\
             memRead 0x4000 m' = Ok 0x1234 m'.
Proof.
  assert (Ha : word 0x4000) by (unfold word; lia).
  assert (Hv : word 0x1234) by (unfold word; lia).
  assert (Hs : 0x4000 <> MR_KBSR) by discriminate.
  assert (Hd : 0x4000 <> MR_KBDR) by discriminate.
  repeat (split; [assumption || exact wf_add_program |]).
  exact (memWrite_memRead add_program 0x4000 0x1234 wf_add_program Ha Hv Hs Hd).
Defined.

Lemma ADD_sets_DR_and_flags_witness :
  wf add_program /\
  exists m', execute 0 0x1023 add_program = Ok tt m' /\
             reg_val m' R_R0 = 3 /\ reg_val m' R_COND = FL_POS.
Proof.
  split; [exact wf_add_program |].
  exact (proj1 (proj2 (ADD_sets_DR_and_flags 0 add_program wf_add_program))
           eq_refl).
Defined.

Lemma reserved_opcodes_fall_out_witness :
  (Z.shiftr 0x8000 12 = OP_RTI \/ Z.shiftr 0x8000 12 = OP_RES) /\
  execute 0 0x8000 add_program = Ok tt add_program /\
  execute 0 0x8000 add_program <> Stop (Panic "bad opcode") add_program.
Proof.
  assert (Hop : Z.shiftr 0x8000 12 = OP_RTI \/ Z.shiftr 0x8000 12 = OP_RES)
    by (left; reflexivity).
  split; [exact Hop |].
  exact (reserved_opcodes_fall_out 0 0x8000 add_program Hop).
Defined.

Lemma reachable_add_program : reachable add_program.
Proof. apply reachable_init; [exact wf_add_program | reflexivity]. Qed.

Lemma COND_holds_one_flag_witness :
  reachable add_program /\
  (FL_POS = 0x1 /\ FL_ZRO = 0x2 /\ FL_NEG = 0x4) /\
  cond_ok add_program /\
  (forall fuel m', step fuel add_program = Ok tt m' -> cond_ok m') /\
  (forall fuel instr m1 m',
     fetch add_program = Ok instr m1 -> execute fuel instr m1 = Ok tt m' ->
     sets_flags (Z.shiftr instr 12) = true ->
     classifies (Z.land (Z.shiftr instr 9) 0x7) m').
Proof.
  split; [exact reachable_add_program |].
  exact (COND_holds_one_flag add_program reachable_add_program).
Defined.

Lemma zero_after_hi : memory hi_machine !! Z.to_nat 0x4003 = Some 0.
Proof. vm_compute; reflexivity. Qed.

Lemma accesses_in_bounds_witness :
  wf hi_machine /\ word 0xF022 /\
  exists m', execute (Z.to_nat 65536) 0xF022 hi_machine = Ok tt m'.
Proof.
  assert (Hw : word 0xF022) by (unfold word; lia).
  split; [exact wf_hi_machine |]. split; [exact Hw |].
  pose proof (accesses_in_bounds (Z.to_nat 65536) 0xF022 hi_machine
                wf_hi_machine Hw) as (_ & _ & _ & _ & Hputs & _).
  apply Hputs.
  - reflexivity.
  - reflexivity.
  - apply Nat.le_refl.
  - exists 0x4003. split; [unfold word; lia | exact zero_after_hi].
Defined.

(** * Further properties of the code *)

(** ** [signExtend] *)

Lemma signExtend_mask n :
  1 <= n <= 16 -> wrap16 (wrap16 (Z.shiftl 1 n) - 1) = Z.ones n.
Proof.
  intros Hn. apply Z.eqb_eq.
  apply (below_forallb
           (fun k => wrap16 (wrap16 (Z.shiftl 1 k) - 1) =? Z.ones k) 17);
    [vm_compute; reflexivity | lia].
Qed.

Lemma signExtend_fill n :
  1 <= n <= 16 -> wrap16 (Z.shiftl 0xFFFF n) = 65536 - 2 ^ n.
Proof.
  intros Hn. apply Z.eqb_eq.
  apply (below_forallb
           (fun k => wrap16 (Z.shiftl 0xFFFF k) =? 65536 - 2 ^ k) 17);
    [vm_compute; reflexivity | lia].
Qed.

Lemma land_1 a : Z.land a 1 = a mod 2.
Proof.
  change (Z.land a 1) with (Z.land a (Z.ones 1)).
  rewrite Z.land_ones by lia. reflexivity.
Qed.

Lemma pow2_le_65536 n : 1 <= n <= 16 -> 2 <= 2 ^ n <= 65536.
Proof.
  intros Hn. change 65536 with (2 ^ 16). change 2 with (2 ^ 1) at 1.
  split; apply Z.pow_le_mono_r; lia.
Qed.

(** The arithmetic reading of the mask, the sign test and the fill. *)
Lemma signExtend_signed x n :
  1 <= n <= 16 ->
  signExtend x n = Some (signed_value n x mod 2 ^ 16).
Proof.
  intros Hn. rewrite signExtend_unfold by lia. f_equal.
  rewrite (signExtend_mask n Hn). unfold sext_of.
  rewrite (signExtend_fill n Hn).
  rewrite Z.land_ones by lia. unfold signed_value.
  pose proof (pow2_le_65536 n Hn) as Hp.
  assert (Hm : 0 <= x mod 2 ^ n < 2 ^ n) by (apply Z.mod_pos_bound; lia).
  set (lo := x mod 2 ^ n) in *.
  assert (Hhalf : 2 ^ n = 2 * 2 ^ (n - 1)).
  { replace n with (1 + (n - 1)) at 1 by lia.
    rewrite Z.pow_add_r by lia. reflexivity. }
  assert (Hh0 : 0 < 2 ^ (n - 1)) by (apply Z.pow_pos_nonneg; lia).
  rewrite Z.shiftr_div_pow2 by lia.
  rewrite land_1. change (2 ^ 16) with 65536.
  destruct (Z.ltb_spec lo (2 ^ (n - 1))) as [Hlt | Hge].
  - rewrite Z.div_small by lia. cbn [Z.modulo negb Z.eqb].
    change (0 mod 2 =? 0) with true. cbn [negb].
    symmetry. apply Z.mod_small. lia.
  - assert (Hq : lo / 2 ^ (n - 1) = 1).
    { symmetry. apply (Z.div_unique lo (2 ^ (n - 1)) 1 (lo - 2 ^ (n - 1))); lia. }
    rewrite Hq. change (1 mod 2 =? 0) with false. cbn [negb].
    assert (Hdis : Z.land lo (65536 - 2 ^ n) = 0).
    { unfold lo. rewrite <- (Z.land_ones x n) by lia.
      rewrite <- (signExtend_fill n Hn), <- (signExtend_mask n Hn).
      rewrite <- Z.land_assoc.
      rewrite (Z.land_comm (wrap16 (wrap16 (Z.shiftl 1 n) - 1))).
      rewrite fill_mask_disjoint by lia. apply Z.land_0_r. }
    rewrite <- (Z.lxor_lor _ _ Hdis), <- (Z.add_nocarry_lxor _ _ Hdis).
    symmetry.
    replace (lo - 2 ^ n) with (lo + (65536 - 2 ^ n) + (-1) * 65536) by lia.
    rewrite Z.mod_add by lia. apply Z.mod_small. lia.
Qed.

(** X1. For a bit count from 1 to 16, [signExtend] returns the
    two's-complement value of the low [n] bits of [x], taken modulo
    [2^16]. *)
Theorem signExtend_value (x n : Z) :
  1 <= n <= 16 ->
  signExtend x n = Some (signed_value n x mod 2 ^ 16).
Proof. exact (signExtend_signed x n). Qed.

(** X2. For a bit count of 16 or more [signExtend] returns its argument. *)
Theorem signExtend_wide (x n : Z) :
  word x -> 16 <= n -> signExtend x n = Some x.
Proof.
  intros Hx Hn. rewrite signExtend_unfold by lia. f_equal.
  unfold sext_of. rewrite !wrap16_shiftl_ge16 by lia.
  change (wrap16 (0 - 1)) with (Z.ones 16).
  rewrite Z.land_ones by lia. rewrite Z.lor_0_r.
  change (2 ^ 16) with 65536. rewrite (Z.mod_small x 65536 Hx).
  destruct (negb _); reflexivity.
Qed.

(** X3. A bit count of zero or less makes [signExtend] panic on a negative
    shift count. *)
Theorem signExtend_panics (x n : Z) : n <= 0 -> signExtend x n = None.
Proof.
  intros Hn. unfold signExtend, shl16, shr16.
  destruct (Z.ltb_spec n 0) as [_ | Hge]; [reflexivity |].
  destruct (Z.ltb_spec (n - 1) 0) as [_ | ?]; [reflexivity | lia].
Qed.

(** The offset field of an instruction, as the handlers extract it. *)
Lemma signExtend_field n instr :
  1 <= n <= 16 ->
  signExtend (Z.land instr (Z.ones n)) n = Some (wrap16 (signed_value n instr)).
Proof.
  intros Hn. rewrite signExtend_signed by exact Hn. f_equal.
  unfold signed_value. rewrite Z.land_ones by lia.
  rewrite Z.mod_mod by (apply Z.pow_nonzero; lia). reflexivity.
Qed.

(** ** Running the handlers *)

Section Run.

Context {H : Type} `{HostOps : Host H}.
Implicit Types (m : Machine H).

Lemma wf_reg_set m r v : wf m -> word v -> wf (reg_set r v m).
Proof. apply wf_with_reg. Qed.

Lemma wf_mem_set m a v : wf m -> word v -> wf (mem_set a v m).
Proof. apply wf_with_memory. Qed.

Lemma wf_loaded m r v : wf m -> word v -> wf (loaded r v m).
Proof.
  intros Hwf Hv. unfold loaded.
  apply (wf_with_reg (with_reg (<[Z.to_nat r := v]> (reg m)) m) _ _
           (wf_with_reg m _ v Hwf Hv) (flag_of_word v)).
Qed.

Lemma mem_val_lookup m a :
  wf m -> word a -> memory m !! Z.to_nat a = Some (mem_val m a).
Proof.
  intros Hwf Ha. unfold mem_val.
  destruct (get_mem_ok m a Hwf Ha) as [v [_ [-> _]]]. reflexivity.
Qed.

Lemma mem_val_word m a : wf m -> word a -> word (mem_val m a).
Proof.
  intros Hwf Ha.
  exact (Forall_word_lookup _ _ _ (wf_mem_words m Hwf) (mem_val_lookup m a Hwf Ha)).
Qed.

(** Sequencing: each rule runs the first action of a [bind]. *)
Lemma bind_get_reg {B} r (k : Z -> M H B) m :
  wf m -> 0 <= r < R_COUNT ->
  (x <- get_reg r ;; k x) m = k (reg_val m r) m.
Proof. intros Hwf Hr. unfold bind. rewrite get_reg_ok by assumption. reflexivity. Qed.

Lemma bind_set_reg {B} r v (k : M H B) m :
  wf m -> 0 <= r < R_COUNT ->
  (set_reg r v ;;; k) m = k (reg_set r v m).
Proof. intros Hwf Hr. unfold bind. rewrite set_reg_ok by assumption. reflexivity. Qed.

Lemma bind_sext {B} n instr (k : Z -> M H B) m :
  1 <= n <= 16 ->
  (x <- shift (signExtend (Z.land instr (Z.ones n)) n) ;; k x) m =
  k (wrap16 (signed_value n instr)) m.
Proof. intros Hn. rewrite signExtend_field by exact Hn. reflexivity. Qed.

Lemma bind_memRead {B} a (k : Z -> M H B) m :
  wf m -> word a -> a <> MR_KBSR ->
  (x <- memRead a ;; k x) m = k (mem_val m a) m.
Proof.
  intros Hwf Ha Hne. unfold bind.
  destruct (memRead_pure m a Hwf Ha Hne) as [v [-> [Hl _]]].
  unfold mem_val. rewrite Hl. reflexivity.
Qed.

Lemma set_flags_run m r v :
  wf m -> 0 <= r < 8 -> word v ->
  (set_reg r v ;;; updateFlags r) m = Ok tt (loaded r v m).
Proof. apply set_then_updateFlags. Qed.

Lemma rel_addr_add16 base n instr :
  add16 base (wrap16 (signed_value n instr)) = rel_addr base n instr.
Proof.
  unfold add16, wrap16, rel_addr. change (2 ^ 16) with 65536.
  apply Zplus_mod_idemp_r.
Qed.

Lemma rel_addr_word base n instr : word (rel_addr base n instr).
Proof. unfold rel_addr. change (2 ^ 16) with 65536. apply wrap16_word. Qed.

Lemma gpr_count r : 0 <= r < 8 -> 0 <= r < R_COUNT.
Proof. unfold R_COUNT. lia. Qed.

Lemma pc_count : 0 <= R_PC < R_COUNT.
Proof. unfold R_PC, R_COUNT. lia. Qed.

Lemma cond_count : 0 <= R_COND < R_COUNT.
Proof. unfold R_COND, R_COUNT. lia. Qed.

Lemma r7_count : 0 <= R_R7 < R_COUNT.
Proof. unfold R_R7, R_COUNT. lia. Qed.

Lemma r0_count : 0 <= R_R0 < R_COUNT.
Proof. unfold R_R0, R_COUNT. lia. Qed.

Lemma not16_complement a : word a -> not16 a = 65535 - a.
Proof.
  intros Ha. unfold not16, wrap16, Z.lnot.
  replace (Z.pred (- a)) with (65535 - a + (-1) * 65536) by lia.
  rewrite Z.mod_add by lia. apply Z.mod_small. unfold word in Ha. lia.
Qed.

Variable fuel : nat.
Variable instr : Z.

Abbreviation DR := (Z.land (Z.shiftr instr 9) 0x7).
Abbreviation SR1 := (Z.land (Z.shiftr instr 6) 0x7).
Abbreviation SR2 := (Z.land instr 0x7).

Lemma execute_op (op : Z) m :
  Z.shiftr instr 12 = op -> execute fuel instr m = dispatch fuel op instr m.
Proof. intros <-. reflexivity. Qed.

(** X4. AND: [DR] receives [R[SR1]] and-ed with [R[SR2]], or with the
    sign-extended low five bits when bit 5 is set; [COND] classifies the
    result; nothing else changes. *)
Theorem AND_run m :
  wf m -> Z.shiftr instr 12 = OP_AND ->
  execute fuel instr m =
  Ok tt (loaded DR
           (Z.land (reg_val m SR1)
              (if Z.testbit instr 5 then signed_value 5 instr mod 2 ^ 16
               else reg_val m SR2)) m).
Proof.
  intros Hwf Hop. rewrite (execute_op OP_AND m Hop).
  change (dispatch fuel OP_AND instr m) with (op_AND instr m).
  unfold op_AND. cbv zeta. rewrite immFlag_testbit.
  pose proof (field3_bound (Z.shiftr instr 9)) as H0.
  pose proof (gpr_count _ (field3_bound (Z.shiftr instr 6))) as H1.
  pose proof (gpr_count _ (field3_bound instr)) as H2.
  pose proof (reg_val_word m SR1 Hwf H1) as Hw1.
  destruct (Z.testbit instr 5); cbn [Z.b2z].
  - change (1 =? 0) with false. cbv iota.
    change 0x1F with (Z.ones 5).
    transitivity ((set_reg DR (Z.land (reg_val m SR1)
                      (signed_value 5 instr mod 2 ^ 16)) ;;; updateFlags DR) m).
    + rewrite signExtend_field by lia. unfold shift, ret, bind.
      rewrite (get_reg_ok m SR1 Hwf H1). reflexivity.
    + apply set_flags_run; [exact Hwf | exact H0 |].
      apply land_word; [exact Hw1 |]. apply Z.mod_pos_bound. reflexivity.
  - change (0 =? 0) with true. cbv iota.
    transitivity ((set_reg DR (Z.land (reg_val m SR1) (reg_val m SR2)) ;;;
                   updateFlags DR) m).
    + unfold bind. rewrite (get_reg_ok m SR1 Hwf H1), (get_reg_ok m SR2 Hwf H2).
      reflexivity.
    + apply set_flags_run; [exact Hwf | exact H0 |].
      apply land_word; [exact Hw1 |].
      pose proof (reg_val_word m SR2 Hwf H2) as Hw2. unfold word in Hw2. lia.
Qed.

(** X5. NOT: [DR] receives the 16-bit complement [0xFFFF - R[SR1]];
    [COND] classifies it; nothing else changes. *)
Theorem NOT_run m :
  wf m -> Z.shiftr instr 12 = OP_NOT ->
  execute fuel instr m = Ok tt (loaded DR (65535 - reg_val m SR1) m).
Proof.
  intros Hwf Hop. rewrite (execute_op OP_NOT m Hop).
  change (dispatch fuel OP_NOT instr m) with (op_NOT instr m).
  unfold op_NOT. cbv zeta.
  pose proof (field3_bound (Z.shiftr instr 9)) as H0.
  pose proof (gpr_count _ (field3_bound (Z.shiftr instr 6))) as H1.
  pose proof (reg_val_word m SR1 Hwf H1) as Hw1.
  rewrite bind_get_reg by assumption.
  rewrite (not16_complement _ Hw1).
  apply set_flags_run; [exact Hwf | exact H0 |]. unfold word in *. lia.
Qed.

(** X6. LEA: [DR] receives the incremented [PC] plus the sign-extended low
    nine bits, modulo [2^16]; [COND] classifies it; memory is not read. *)
Theorem LEA_run m :
  wf m -> Z.shiftr instr 12 = OP_LEA ->
  execute fuel instr m =
  Ok tt (loaded DR (rel_addr (reg_val m R_PC) 9 instr) m).
Proof.
  intros Hwf Hop. rewrite (execute_op OP_LEA m Hop).
  change (dispatch fuel OP_LEA instr m) with (op_LEA instr m).
  unfold op_LEA. cbv zeta. change 0x1FF with (Z.ones 9).
  pose proof (field3_bound (Z.shiftr instr 9)) as H0.
  rewrite bind_sext by lia.
  rewrite bind_get_reg by (exact Hwf || exact pc_count).
  rewrite rel_addr_add16.
  apply set_flags_run; [exact Hwf | exact H0 | apply rel_addr_word].
Qed.

(** X7. BR: when the three condition bits of the instruction and [COND]
    have a bit in common, [PC] moves by the sign-extended low nine bits,
    modulo [2^16]; otherwise the state is unchanged.  With no condition
    bit set the branch is never taken; with all three set it is taken in
    every state whose [COND] holds a flag. *)
Theorem BR_run m :
  wf m -> Z.shiftr instr 12 = OP_BR ->
  execute fuel instr m =
    Ok tt (if Z.land DR (reg_val m R_COND) =? 0 then m
           else reg_set R_PC (rel_addr (reg_val m R_PC) 9 instr) m) /\
  (DR = 0 -> execute fuel instr m = Ok tt m) /\
  (DR = 7 -> cond_ok m ->
   execute fuel instr m =
     Ok tt (reg_set R_PC (rel_addr (reg_val m R_PC) 9 instr) m)).
Proof.
  intros Hwf Hop.
  assert (Hgen : execute fuel instr m =
    Ok tt (if Z.land DR (reg_val m R_COND) =? 0 then m
           else reg_set R_PC (rel_addr (reg_val m R_PC) 9 instr) m)).
  { rewrite (execute_op OP_BR m Hop).
    change (dispatch fuel OP_BR instr m) with (op_BR instr m).
    unfold op_BR. cbv zeta. change 0x1FF with (Z.ones 9).
    rewrite bind_sext by lia.
    rewrite bind_get_reg by (exact Hwf || exact cond_count).
    destruct (Z.land DR (reg_val m R_COND) =? 0); cbn [negb]; [reflexivity |].
    rewrite bind_get_reg by (exact Hwf || exact pc_count).
    rewrite rel_addr_add16. apply set_reg_ok; [exact Hwf | exact pc_count]. }
  split; [exact Hgen |]. split.
  - intros Hz. rewrite Hgen, Hz. reflexivity.
  - intros H7 Hc. rewrite Hgen, H7.
    unfold cond_ok in Hc. unfold reg_val.
    destruct Hc as [-> | [-> | ->]]; reflexivity.
Qed.

(** X8. JMP (and RET): [PC] receives [R[SR1]]; nothing else changes. *)
Theorem JMP_run m :
  wf m -> Z.shiftr instr 12 = OP_JMP ->
  execute fuel instr m = Ok tt (reg_set R_PC (reg_val m SR1) m).
Proof.
  intros Hwf Hop. rewrite (execute_op OP_JMP m Hop).
  change (dispatch fuel OP_JMP instr m) with (op_JMP instr m).
  unfold op_JMP. cbv zeta.
  rewrite bind_get_reg by (exact Hwf || apply field3_count).
  apply set_reg_ok; [exact Hwf | exact pc_count].
Qed.

(** X9. JSR and JSRR: [R7] receives the incremented [PC]; then, with bit 11
    set, [PC] moves by the sign-extended low eleven bits; with bit 11
    clear, [PC] receives the base register as it is after the write to
    [R7], so that a JSRR through [R7] leaves [PC] where it was. *)
Theorem JSR_run m :
  wf m -> Z.shiftr instr 12 = OP_JSR ->
  execute fuel instr m =
  Ok tt (reg_set R_PC
           (if Z.testbit instr 11 then rel_addr (reg_val m R_PC) 11 instr
            else if SR1 =? R_R7 then reg_val m R_PC
            else reg_val m SR1)
           (reg_set R_R7 (reg_val m R_PC) m)).
Proof.
  intros Hwf Hop. rewrite (execute_op OP_JSR m Hop).
  change (dispatch fuel OP_JSR instr m) with (op_JSR instr m).
  unfold op_JSR. cbv zeta.
  pose proof (reg_val_word m R_PC Hwf pc_count) as Hpc.
  pose proof (wf_reg_set m R_R7 _ Hwf Hpc) as Hwf7.
  rewrite bind_get_reg by (exact Hwf || exact pc_count).
  rewrite bind_set_reg by (exact Hwf || exact r7_count).
  assert (Hflag : Z.land (Z.shiftr instr 11) 1 = Z.b2z (Z.testbit instr 11)).
  { rewrite land_1, <- Z.bit0_mod, Z.shiftr_spec by lia. reflexivity. }
  rewrite Hflag.
  assert (Hpc7 : reg_val (reg_set R_R7 (reg_val m R_PC) m) R_PC = reg_val m R_PC).
  { apply reg_val_insert_ne; unfold R_R7, R_PC; lia. }
  destruct (Z.testbit instr 11); cbn [Z.b2z].
  - change (1 =? 0) with false. cbv iota.
    rewrite bind_get_reg by (exact Hwf7 || exact pc_count).
    change 0x7FF with (Z.ones 11). rewrite bind_sext by lia.
    rewrite Hpc7, rel_addr_add16.
    apply set_reg_ok; [exact Hwf7 | exact pc_count].
  - change (0 =? 0) with true. cbv iota.
    rewrite bind_get_reg by (exact Hwf7 || apply field3_count).
    rewrite set_reg_ok by (exact Hwf7 || exact pc_count).
    assert (Hv : reg_val (reg_set R_R7 (reg_val m R_PC) m) SR1 =
                 if SR1 =? R_R7 then reg_val m R_PC else reg_val m SR1).
    { destruct (Z.eqb_spec SR1 R_R7) as [-> | Hne].
      - apply (reg_val_insert_eq m R_R7 _ Hwf r7_count).
      - apply reg_val_insert_ne;
          [unfold R_R7; lia | apply field3_bound | congruence]. }
    rewrite Hv. reflexivity.
Qed.

(** X10. LD from an address other than the keyboard status register: [DR]
    receives the word at [PC] plus the sign-extended low nine bits;
    [COND] classifies it; nothing else changes. *)
Theorem LD_run m :
  wf m -> Z.shiftr instr 12 = OP_LD ->
  rel_addr (reg_val m R_PC) 9 instr <> MR_KBSR ->
  execute fuel instr m =
  Ok tt (loaded DR (mem_val m (rel_addr (reg_val m R_PC) 9 instr)) m).
Proof.
  intros Hwf Hop Hne. rewrite (execute_op OP_LD m Hop).
  change (dispatch fuel OP_LD instr m) with (op_LD instr m).
  unfold op_LD. cbv zeta. change 0x1FF with (Z.ones 9).
  rewrite bind_sext by lia.
  rewrite bind_get_reg by (exact Hwf || exact pc_count).
  rewrite rel_addr_add16.
  rewrite bind_memRead by (exact Hwf || apply rel_addr_word || exact Hne).
  apply set_flags_run; [exact Hwf | apply field3_bound |].
  apply mem_val_word; [exact Hwf | apply rel_addr_word].
Qed.

(** X11. LDR from an address other than the keyboard status register:
    [DR] receives the word at [R[SR1]] plus the sign-extended low six
    bits; [COND] classifies it; nothing else changes. *)
Theorem LDR_run m :
  wf m -> Z.shiftr instr 12 = OP_LDR ->
  rel_addr (reg_val m SR1) 6 instr <> MR_KBSR ->
  execute fuel instr m =
  Ok tt (loaded DR (mem_val m (rel_addr (reg_val m SR1) 6 instr)) m).
Proof.
  intros Hwf Hop Hne. rewrite (execute_op OP_LDR m Hop).
  change (dispatch fuel OP_LDR instr m) with (op_LDR instr m).
  unfold op_LDR. cbv zeta. change 0x3F with (Z.ones 6).
  rewrite bind_sext by lia.
  rewrite bind_get_reg by (exact Hwf || apply field3_count).
  rewrite rel_addr_add16.
  rewrite bind_memRead by (exact Hwf || apply rel_addr_word || exact Hne).
  apply set_flags_run; [exact Hwf | apply field3_bound |].
  apply mem_val_word; [exact Hwf | apply rel_addr_word].
Qed.

(** X12. LDI when neither the pointer cell nor the cell it points to is
    the keyboard status register: [DR] receives the word the pointer at
    [PC] plus offset points to; [COND] classifies it. *)
Theorem LDI_run m :
  wf m -> Z.shiftr instr 12 = OP_LDI ->
  rel_addr (reg_val m R_PC) 9 instr <> MR_KBSR ->
  mem_val m (rel_addr (reg_val m R_PC) 9 instr) <> MR_KBSR ->
  execute fuel instr m =
  Ok tt (loaded DR
           (mem_val m (mem_val m (rel_addr (reg_val m R_PC) 9 instr))) m).
Proof.
  intros Hwf Hop Hne Hne2. rewrite (execute_op OP_LDI m Hop).
  change (dispatch fuel OP_LDI instr m) with (op_LDI instr m).
  unfold op_LDI. cbv zeta. change 0x1FF with (Z.ones 9).
  rewrite bind_sext by lia.
  rewrite bind_get_reg by (exact Hwf || exact pc_count).
  rewrite rel_addr_add16.
  pose proof (mem_val_word m _ Hwf (rel_addr_word (reg_val m R_PC) 9 instr)) as Hp.
  rewrite bind_memRead by (exact Hwf || apply rel_addr_word || exact Hne).
  rewrite bind_memRead by (exact Hwf || exact Hp || exact Hne2).
  apply set_flags_run; [exact Hwf | apply field3_bound |].
  apply mem_val_word; [exact Hwf | exact Hp].
Qed.

(** X13. ST, STR and STI write the content of the register in bits 11..9
    to memory and change nothing else: ST at [PC] plus offset, STR at
    [R[SR1]] plus the six-bit offset, STI at the address held in the cell
    at [PC] plus offset (when that cell is not the keyboard status
    register).  No address is special for a write. *)
Theorem stores_run m :
  wf m ->
  (Z.shiftr instr 12 = OP_ST ->
   execute fuel instr m =
     Ok tt (mem_set (rel_addr (reg_val m R_PC) 9 instr) (reg_val m DR) m)) /\
  (Z.shiftr instr 12 = OP_STR ->
   execute fuel instr m =
     Ok tt (mem_set (rel_addr (reg_val m SR1) 6 instr) (reg_val m DR) m)) /\
  (Z.shiftr instr 12 = OP_STI ->
   rel_addr (reg_val m R_PC) 9 instr <> MR_KBSR ->
   execute fuel instr m =
     Ok tt (mem_set (mem_val m (rel_addr (reg_val m R_PC) 9 instr))
              (reg_val m DR) m)).
Proof.
  intros Hwf. split; [| split].
  - intros Hop. rewrite (execute_op OP_ST m Hop).
    change (dispatch fuel OP_ST instr m) with (op_ST instr m).
    unfold op_ST. cbv zeta. change 0x1FF with (Z.ones 9).
    rewrite bind_sext by lia.
    rewrite bind_get_reg by (exact Hwf || exact pc_count).
    rewrite bind_get_reg by (exact Hwf || apply field3_count).
    rewrite rel_addr_add16.
    apply memWrite_ok; [exact Hwf | apply rel_addr_word].
  - intros Hop. rewrite (execute_op OP_STR m Hop).
    change (dispatch fuel OP_STR instr m) with (op_STR instr m).
    unfold op_STR. cbv zeta. change 0x3F with (Z.ones 6).
    rewrite bind_sext by lia.
    rewrite bind_get_reg by (exact Hwf || apply field3_count).
    rewrite bind_get_reg by (exact Hwf || apply field3_count).
    rewrite rel_addr_add16.
    apply memWrite_ok; [exact Hwf | apply rel_addr_word].
  - intros Hop Hne. rewrite (execute_op OP_STI m Hop).
    change (dispatch fuel OP_STI instr m) with (op_STI instr m).
    unfold op_STI. cbv zeta. change 0x1FF with (Z.ones 9).
    rewrite bind_sext by lia.
    rewrite bind_get_reg by (exact Hwf || exact pc_count).
    rewrite rel_addr_add16.
    rewrite bind_memRead by (exact Hwf || apply rel_addr_word || exact Hne).
    rewrite bind_get_reg by (exact Hwf || apply field3_count).
    apply memWrite_ok; [exact Hwf |].
    apply mem_val_word; [exact Hwf | apply rel_addr_word].
Qed.

End Run.

(** ** Composition and the memory bus *)

Section Bus.

Context {H : Type} `{HostOps : Host H}.
Implicit Types (m : Machine H).

Lemma bind_ok {A B} (c : M H A) (k : A -> M H B) m a m' :
  c m = Ok a m' -> (x <- c ;; k x) m = k a m'.
Proof. intros Hc. unfold bind. rewrite Hc. reflexivity. Qed.

Lemma bind_stop {A B} (c : M H A) (k : A -> M H B) m f m' :
  c m = Stop f m' -> (x <- c ;; k x) m = Stop f m'.
Proof. intros Hc. unfold bind. rewrite Hc. reflexivity. Qed.

Lemma on_stdin_run {A} (call : H -> option A * H) m r h :
  call (host m) = (r, h) -> on_stdin call m = Ok r (with_host h m).
Proof. intros Hc. unfold on_stdin. rewrite Hc. reflexivity. Qed.

Lemma peekChar_run m r h :
  stdin_Peek1 (host m) = (r, h) ->
  peekChar m = Ok (match r with Some _ => true | None => false end)
                 (with_host h m).
Proof.
  intros Hp. unfold peekChar.
  rewrite (bind_ok _ _ m r (with_host h m) (on_stdin_run _ m r h Hp)).
  reflexivity.
Qed.

Lemma memRead_tail m a :
  wf m -> word a ->
  (if a <=? Z.of_nat (length (memory m)) then get_mem a m
   else Stop (LogFatal "unhandled cpu memory read at") m) =
  Ok (mem_val m a) m.
Proof.
  intros Hwf Ha.
  pose proof (wf_mem_len m Hwf) as Hl. change MEMORY_MAX with 65536 in Hl.
  destruct (Z.leb_spec a (Z.of_nat (length (memory m)))) as [_ | Hgt];
    [| unfold word in Ha; lia].
  destruct (get_mem_ok m a Hwf Ha) as [v [-> [Hv _]]].
  unfold mem_val. rewrite Hv. reflexivity.
Qed.

Lemma reg_val_mem_set m a v r : reg_val (mem_set a v m) r = reg_val m r.
Proof. reflexivity. Qed.

Lemma mem_val_mem_set_eq m a v :
  wf m -> word a -> mem_val (mem_set a v m) a = v.
Proof.
  intros Hwf Ha. unfold mem_val, mem_set. cbn [memory with_memory].
  rewrite list_lookup_insert_eq; [reflexivity |].
  pose proof (wf_mem_len m Hwf) as Hl. change MEMORY_MAX with 65536 in Hl.
  unfold word in Ha. lia.
Qed.

Lemma mem_val_mem_set_ne m a b v :
  word a -> word b -> a <> b -> mem_val (mem_set a v m) b = mem_val m b.
Proof.
  intros Ha Hb Hne. unfold mem_val, mem_set. cbn [memory with_memory].
  rewrite list_lookup_insert_ne; [reflexivity |]. unfold word in *. lia.
Qed.

Lemma memRead_val m a :
  wf m -> word a -> a <> MR_KBSR -> memRead a m = Ok (mem_val m a) m.
Proof.
  intros Hwf Ha Hne. destruct (memRead_pure m a Hwf Ha Hne) as [v [-> [Hl _]]].
  unfold mem_val. rewrite Hl. reflexivity.
Qed.

(** X14. A store through STR followed by a load through LDR with the same
    base register and offset puts the stored register's value in the
    load's destination, whatever the two destination fields are, as long
    as the address is not the keyboard status register. *)
Theorem STR_then_LDR (fuel : nat) (str ldr : Z) m :
  wf m ->
  Z.shiftr str 12 = OP_STR -> Z.shiftr ldr 12 = OP_LDR ->
  Z.land (Z.shiftr str 6) 0x7 = Z.land (Z.shiftr ldr 6) 0x7 ->
  signed_value 6 str = signed_value 6 ldr ->
  rel_addr (reg_val m (Z.land (Z.shiftr str 6) 0x7)) 6 str <> MR_KBSR ->
  exists m1,
    execute fuel str m = Ok tt m1 /\
    execute fuel ldr m1 =
      Ok tt (loaded (Z.land (Z.shiftr ldr 9) 0x7)
               (reg_val m (Z.land (Z.shiftr str 9) 0x7)) m1).
Proof.
  intros Hwf Hs Hl Hbase Hoff Hne.
  set (a := rel_addr (reg_val m (Z.land (Z.shiftr str 6) 7)) 6 str) in *.
  set (v := reg_val m (Z.land (Z.shiftr str 9) 7)).
  assert (Ha : word a) by apply rel_addr_word.
  assert (Hv : word v) by (apply reg_val_word; [exact Hwf | apply field3_count]).
  exists (mem_set a v m). split.
  - unfold execute. cbv zeta. rewrite Hs.
    change (dispatch fuel OP_STR str (H := H)) with (op_STR (H := H) str).
    unfold op_STR. cbv zeta. change 0x3F with (Z.ones 6).
    rewrite bind_sext by lia.
    rewrite bind_get_reg by (exact Hwf || apply field3_count).
    rewrite bind_get_reg by (exact Hwf || apply field3_count).
    rewrite rel_addr_add16. apply memWrite_ok; assumption.
  - assert (Hwf1 : wf (mem_set a v m)) by (apply wf_mem_set; assumption).
    unfold execute. cbv zeta. rewrite Hl.
    change (dispatch fuel OP_LDR ldr (H := H)) with (op_LDR (H := H) ldr).
    unfold op_LDR. cbv zeta. change 0x3F with (Z.ones 6).
    rewrite bind_sext by lia.
    rewrite bind_get_reg by (exact Hwf1 || apply field3_count).
    rewrite rel_addr_add16, reg_val_mem_set.
    assert (Ha' : rel_addr (reg_val m (Z.land (Z.shiftr ldr 6) 7)) 6 ldr = a).
    { unfold a, rel_addr. rewrite Hbase, Hoff. reflexivity. }
    rewrite Ha'.
    rewrite bind_memRead by assumption.
    rewrite (mem_val_mem_set_eq m a v Hwf Ha).
    apply set_flags_run; [exact Hwf1 | apply field3_bound | exact Hv].
Qed.

(** X15. A write leaves every other cell as it was: after
    [memWrite(a, v)], [memRead(b)] for an address [b] other than [a] and
    the keyboard status register returns what it returned before. *)
Theorem memWrite_other_cells m (a b v : Z) :
  wf m -> word a -> word b -> word v -> b <> a -> b <> MR_KBSR ->
  exists m', memWrite a v m = Ok tt m' /\
             memRead b m' = Ok (mem_val m b) m' /\
             memRead b m = Ok (mem_val m b) m.
Proof.
  intros Hwf Ha Hb Hv Hne Hk. exists (mem_set a v m). split; [| split].
  - apply memWrite_ok; assumption.
  - rewrite memRead_val by (apply wf_mem_set || idtac; assumption).
    rewrite mem_val_mem_set_ne by (assumption || congruence). reflexivity.
  - apply memRead_val; assumption.
Qed.

(** X16. Polling the keyboard when a byte is there: if the peek succeeds
    and the read that follows yields the byte [c], [memRead(KBSR)]
    returns [0x8000], and a [memRead(KBDR)] after it returns [c]; the
    host is left as the read left it. *)
Theorem memRead_KBSR_ready m (b c : byte) (h h' : H) :
  wf m ->
  stdin_Peek1 (host m) = (Some b, h) -> stdin_ReadByte h = (Some c, h') ->
  exists m', memRead MR_KBSR m = Ok 0x8000 m' /\
             memRead MR_KBDR m' = Ok (Z_of_byte c) m' /\
             host m' = h' /\ reg m' = reg m /\ stdout m' = stdout m.
Proof.
  intros Hwf Hp Hr.
  assert (Hks : word MR_KBSR) by (unfold word, MR_KBSR; lia).
  assert (Hkd : word MR_KBDR) by (unfold word, MR_KBDR; lia).
  assert (Hw1 : wf (with_host h' (with_host h m)))
    by (apply wf_with_host, wf_with_host, Hwf).
  assert (H8 : word 0x8000) by (unfold word; lia).
  set (m1 := with_host h' (with_host h m)) in *.
  set (m2 := mem_set MR_KBSR 0x8000 m1).
  assert (Hw2 : wf m2) by (apply wf_mem_set; assumption).
  set (m3 := mem_set MR_KBDR (Z_of_byte c) m2).
  assert (Hw3 : wf m3) by (apply wf_mem_set; [exact Hw2 | apply Z_of_byte_word]).
  exists m3. split; [| split; [| repeat split]].
  - unfold memRead. change (MR_KBSR =? MR_KBSR) with true. cbv iota.
    assert (Hpoll :
      (avail <- peekChar ;;
       if avail then
         r <- on_stdin stdin_ReadByte ;;
         match r with
         | None => stop (Panic "couldn't read from I/O")
         | Some char =>
             set_mem MR_KBSR (Z.shiftl 1 15) ;;;
             set_mem MR_KBDR (Z_of_byte char)
         end
       else set_mem MR_KBSR 0) m = Ok tt m3).
    { rewrite (bind_ok _ _ m _ _ (peekChar_run m (Some b) h Hp)). cbv iota.
      rewrite (bind_ok _ _ _ _ _ (on_stdin_run stdin_ReadByte (with_host h m)
                                    (Some c) h' Hr)).
      cbv iota.
      rewrite (bind_ok _ _ _ _ _ (set_mem_ok m1 MR_KBSR _ Hw1 Hks)).
      apply (set_mem_ok m2 MR_KBDR _ Hw2 Hkd). }
    rewrite (bind_ok _ _ m _ _ Hpoll).
    rewrite (memRead_tail m3 MR_KBSR Hw3 Hks). f_equal.
    unfold m3. rewrite mem_val_mem_set_ne by (assumption || discriminate).
    apply (mem_val_mem_set_eq m1 MR_KBSR _ Hw1 Hks).
  - rewrite (memRead_val m3 MR_KBDR Hw3 Hkd) by discriminate. f_equal.
    apply (mem_val_mem_set_eq m2 MR_KBDR _ Hw2 Hkd).
Qed.

(** X17. Polling the keyboard when nothing is there: if the peek fails,
    [memRead(KBSR)] returns [0], consumes no input beyond the peek and
    leaves the keyboard data register as it was. *)
Theorem memRead_KBSR_idle m (h : H) :
  wf m ->
  stdin_Peek1 (host m) = (None, h) ->
  exists m', memRead MR_KBSR m = Ok 0 m' /\
             mem_val m' MR_KBDR = mem_val m MR_KBDR /\
             host m' = h /\ reg m' = reg m /\ stdout m' = stdout m.
Proof.
  intros Hwf Hp.
  assert (Hks : word MR_KBSR) by (unfold word, MR_KBSR; lia).
  assert (Hkd : word MR_KBDR) by (unfold word, MR_KBDR; lia).
  assert (Hw1 : wf (with_host h m)) by (apply wf_with_host, Hwf).
  set (m1 := with_host h m) in *.
  set (m2 := mem_set MR_KBSR 0 m1).
  assert (Hw2 : wf m2) by (apply wf_mem_set; [exact Hw1 | exact word_0]).
  exists m2. split; [| repeat split].
  - unfold memRead. change (MR_KBSR =? MR_KBSR) with true. cbv iota.
    assert (Hpoll :
      (avail <- peekChar ;;
       if avail then
         r <- on_stdin stdin_ReadByte ;;
         match r with
         | None => stop (Panic "couldn't read from I/O")
         | Some char =>
             set_mem MR_KBSR (Z.shiftl 1 15) ;;;
             set_mem MR_KBDR (Z_of_byte char)
         end
       else set_mem MR_KBSR 0) m = Ok tt m2).
    { rewrite (bind_ok _ _ m _ _ (peekChar_run m None h Hp)). cbv iota.
      apply (set_mem_ok m1 MR_KBSR _ Hw1 Hks). }
    rewrite (bind_ok _ _ m _ _ Hpoll).
    rewrite (memRead_tail m2 MR_KBSR Hw2 Hks). f_equal.
    apply (mem_val_mem_set_eq m1 MR_KBSR _ Hw1 Hks).
  - transitivity (mem_val m1 MR_KBDR); [| reflexivity].
    apply mem_val_mem_set_ne; [exact Hks | exact Hkd | discriminate].
Qed.

Lemma fetch_ok m :
  wf m -> reg_val m R_PC <> MR_KBSR ->
  fetch m =
    Ok (mem_val m (reg_val m R_PC))
       (reg_set R_PC ((reg_val m R_PC + 1) mod 2 ^ 16) m).
Proof.
  intros Hwf Hne. unfold fetch.
  rewrite bind_get_reg by (exact Hwf || exact pc_count).
  rewrite bind_memRead;
    [| exact Hwf | apply reg_val_word; [exact Hwf | exact pc_count] | exact Hne].
  rewrite bind_get_reg by (exact Hwf || exact pc_count).
  rewrite bind_set_reg by (exact Hwf || exact pc_count). reflexivity.
Qed.

(** X18. Fetch from an address other than the keyboard status register
    returns the word at [PC] and moves [PC] on by one modulo [2^16]: from
    [0xFFFF] it wraps to [0]. *)
Theorem fetch_run m :
  wf m -> reg_val m R_PC <> MR_KBSR ->
  fetch m =
    Ok (mem_val m (reg_val m R_PC))
       (reg_set R_PC ((reg_val m R_PC + 1) mod 2 ^ 16) m) /\
  (reg_val m R_PC = 0xFFFF ->
   reg_val (final (fetch m)) R_PC = 0).
Proof.
  intros Hwf Hne. pose proof (fetch_ok m Hwf Hne) as Hrun.
  split; [exact Hrun |].
  intros Hpc. rewrite Hrun. cbn [final]. unfold reg_set.
  rewrite (reg_val_insert_eq m R_PC _ Hwf pc_count). rewrite Hpc. reflexivity.
Qed.

End Bus.

(** ** Traps and the execution loop *)

Section Traps.

Context {H : Type} `{HostOps : Host H}.
Implicit Types (m : Machine H).

Variable fuel : nat.
Variable instr : Z.

(** The state in which a trap routine starts. *)
Abbreviation entered m := (reg_set R_R7 (reg_val m R_PC) m).

Lemma wf_entered m : wf m -> wf (entered m).
Proof.
  intros Hwf. apply wf_reg_set; [exact Hwf |].
  apply reg_val_word; [exact Hwf | exact pc_count].
Qed.

Lemma entered_R0 m : reg_val (entered m) R_R0 = reg_val m R_R0.
Proof. apply reg_val_insert_ne; unfold R_R7, R_R0; lia. Qed.

Lemma execute_TRAP m :
  wf m -> Z.shiftr instr 12 = OP_TRAP ->
  execute fuel instr m =
  (let vect := Z.land instr 0xFF in
   if vect =? TRAP_GETC then trap_GETC
   else if vect =? TRAP_OUT then trap_OUT
   else if vect =? TRAP_PUTS then trap_PUTS fuel
   else if vect =? TRAP_PUTSP then trap_PUTSP fuel
   else if vect =? TRAP_IN then trap_IN
   else if vect =? TRAP_HALT then trap_HALT
   else ret tt) (entered m).
Proof.
  intros Hwf Hop. unfold execute. cbv zeta. rewrite Hop.
  change (dispatch fuel OP_TRAP instr m) with (op_TRAP fuel instr m).
  apply op_TRAP_run. exact Hwf.
Qed.

(** X19. A TRAP whose vector is none of [0x20] to [0x25] saves the
    incremented [PC] in [R7] and does nothing else. *)
Theorem TRAP_unknown_vector m :
  wf m -> Z.shiftr instr 12 = OP_TRAP ->
  Z.land instr 0xFF < TRAP_GETC \/ TRAP_HALT < Z.land instr 0xFF ->
  execute fuel instr m = Ok tt (entered m).
Proof.
  intros Hwf Hop Hv. rewrite (execute_TRAP m Hwf Hop). cbv zeta.
  unfold TRAP_GETC, TRAP_OUT, TRAP_PUTS, TRAP_PUTSP, TRAP_IN, TRAP_HALT in *.
  repeat match goal with
         | |- context [?a =? ?b] =>
             destruct (Z.eqb_spec a b) as [? | _]; [lia |]
         end.
  reflexivity.
Qed.

(** X20. TRAP OUT writes the UTF-8 encoding of the whole of [R0], not of
    its low byte; for [R0] below [0x80] that is the single byte [R0]. *)
Theorem TRAP_OUT_run m :
  wf m -> Z.shiftr instr 12 = OP_TRAP -> Z.land instr 0xFF = TRAP_OUT ->
  execute fuel instr m =
    Ok tt (with_stdout (stdout m ++ utf8_encode (reg_val m R_R0)) (entered m)) /\
  (reg_val m R_R0 < 0x80 -> utf8_encode (reg_val m R_R0) = [reg_val m R_R0]).
Proof.
  intros Hwf Hop Hv. split.
  - rewrite (execute_TRAP m Hwf Hop). cbv zeta. rewrite Hv.
    change (trap_OUT (entered m) =
            Ok tt (with_stdout (stdout m ++ utf8_encode (reg_val m R_R0))
                     (entered m))).
    unfold trap_OUT. rewrite bind_get_reg by (apply wf_entered, Hwf || exact r0_count).
    rewrite entered_R0. reflexivity.
  - intros Hlt. unfold utf8_encode.
    destruct (Z.leb_spec (reg_val m R_R0) 127) as [_ | ?]; [reflexivity | lia].
Qed.

Lemma read_char_run m r h :
  stdin_ReadRune (host m) = (r, h) ->
  read_char m =
  match r with
  | Some c => Ok (c mod 65536) (with_host h m)
  | None => Stop (Panic "tried reading entered char, failed") (with_host h m)
  end.
Proof.
  intros Hr. unfold read_char.
  rewrite (bind_ok _ _ m r (with_host h m) (on_stdin_run _ m r h Hr)).
  destruct r; reflexivity.
Qed.

(** X21. TRAP GETC: when the read yields the character [c], [R0] receives
    [c] modulo [2^16] and [COND] classifies it, with nothing written to the
    output; when the read fails the program panics, [R7] already
    overwritten. *)
Theorem TRAP_GETC_run m r h :
  wf m -> Z.shiftr instr 12 = OP_TRAP -> Z.land instr 0xFF = TRAP_GETC ->
  stdin_ReadRune (host m) = (r, h) ->
  execute fuel instr m =
  match r with
  | Some c => Ok tt (loaded R_R0 (c mod 65536) (with_host h (entered m)))
  | None =>
      Stop (Panic "tried reading entered char, failed")
        (with_host h (entered m))
  end.
Proof.
  intros Hwf Hop Hv Hr. rewrite (execute_TRAP m Hwf Hop). cbv zeta. rewrite Hv.
  change ((if TRAP_GETC =? TRAP_GETC then trap_GETC else _) (entered m))
    with (trap_GETC (entered m)).
  unfold trap_GETC. pose proof (read_char_run (entered m) r h Hr) as Hc.
  destruct r as [c |].
  - rewrite (bind_ok _ _ _ _ _ Hc).
    apply set_flags_run;
      [apply wf_with_host, wf_entered, Hwf | unfold R_R0; lia | apply wrap16_word].
  - apply (bind_stop _ _ _ _ _ Hc).
Qed.

(** X22. TRAP IN writes the prompt "Enter character: " and a line feed,
    reads one character into [R0] modulo [2^16] and updates [COND]; the
    character is not echoed. *)
Theorem TRAP_IN_run m r h :
  wf m -> Z.shiftr instr 12 = OP_TRAP -> Z.land instr 0xFF = TRAP_IN ->
  stdin_ReadRune (host m) = (r, h) ->
  let prompted :=
    with_stdout (stdout m ++ bytes_of_string "Enter character: " ++ [10])
      (entered m) in
  execute fuel instr m =
  match r with
  | Some c => Ok tt (loaded R_R0 (c mod 65536) (with_host h prompted))
  | None =>
      Stop (Panic "tried reading entered char, failed") (with_host h prompted)
  end.
Proof.
  intros Hwf Hop Hv Hr prompted.
  rewrite (execute_TRAP m Hwf Hop). cbv zeta. rewrite Hv.
  change (trap_IN (entered m) =
          match r with
          | Some c => Ok tt (loaded R_R0 (c mod 65536) (with_host h prompted))
          | None =>
              Stop (Panic "tried reading entered char, failed")
                (with_host h prompted)
          end).
  unfold trap_IN.
  assert (Hp : println "Enter character: " (entered m) = Ok tt prompted)
    by reflexivity.
  rewrite (bind_ok _ _ _ _ _ Hp).
  pose proof (read_char_run prompted r h Hr) as Hc.
  destruct r as [c |].
  - rewrite (bind_ok _ _ _ _ _ Hc).
    apply set_flags_run;
      [apply wf_with_host, wf_with_stdout, wf_entered, Hwf
      | unfold R_R0; lia | apply wrap16_word].
  - apply (bind_stop _ _ _ _ _ Hc).
Qed.

(** X23. TRAP PUTS on a string whose first zero word is [k] words after
    [R0]: with more than [k] units of fuel the trap returns, having
    written the characters of the [k] words before the zero word and then
    one zero byte; memory and the registers other than [R7] are
    unchanged. *)
Theorem TRAP_PUTS_run m (k : nat) :
  wf m -> Z.shiftr instr 12 = OP_TRAP -> Z.land instr 0xFF = TRAP_PUTS ->
  (k < fuel)%nat ->
  (forall j, (j < k)%nat ->
     mem_val m (add16 (reg_val m R_R0) (Z.of_nat j)) <> 0) ->
  mem_val m (add16 (reg_val m R_R0) (Z.of_nat k)) = 0 ->
  execute fuel instr m =
  Ok tt (with_stdout
           (stdout m ++
            chars_bytes (PUTS_spec_chars (S k) (memory m) (reg_val m R_R0)) ++
            [0]) (entered m)).
Proof.
  intros Hwf Hop Hv Hk Hnz Hz.
  rewrite (execute_TRAP m Hwf Hop). cbv zeta. rewrite Hv.
  change (trap_PUTS fuel (entered m) =
          Ok tt (with_stdout
                   (stdout m ++
                    chars_bytes (PUTS_spec_chars (S k) (memory m)
                                   (reg_val m R_R0)) ++ [0]) (entered m))).
  unfold trap_PUTS.
  rewrite bind_get_reg by (apply wf_entered, Hwf || exact r0_count).
  rewrite entered_R0.
  pose proof (reg_val_word m R_R0 Hwf r0_count) as Hr0.
  rewrite (puts_loop_run k fuel (reg_val m R_R0) 0 (entered m)
             (wf_entered m Hwf) Hk).
  - cbn [memory stdout reg_set with_reg].
    replace (add16 (reg_val m R_R0) 0) with (reg_val m R_R0); [reflexivity |].
    unfold add16, wrap16. rewrite Z.add_0_r. symmetry. apply Z.mod_small. exact Hr0.
  - intros j Hj Hl. apply (Hnz j Hj). rewrite Z.add_0_l in Hl.
    unfold mem_val. cbn [memory reg_set with_reg] in Hl. rewrite Hl. reflexivity.
  - rewrite Z.add_0_l. cbn [memory reg_set with_reg].
    rewrite (mem_val_lookup m _ Hwf (add16_word _ _)). rewrite Hz. reflexivity.
Qed.

End Traps.

Section Loop.

Context {H : Type} `{HostOps : Host H}.
Implicit Types (m : Machine H).


(** The loop keeps its invariant and returns only with [running]
    cleared. *)
Lemma run_Inv (n fuel : nat) : forall m,
  wf m -> cond_ok m ->
  match run n fuel m with
  | Ok _ m' => wf m' /\ cond_ok m' /\ running m' = false
  | Stop f _ => loop_fault f
  end.
Proof.
  induction n as [| n IH]; intros m Hwf Hc; cbn [run].
  - destruct (running m) eqn:Hr; [right; reflexivity | auto].
  - destruct (running m) eqn:Hr; [| auto].
    pose proof (step_safe true fuel m (conj Hwf (fun _ => Hc))) as Hs.
    unfold bind. destruct (step fuel m) as [[] m1 | f m1]; [| exact Hs].
    destruct Hs as [Hwf1 Hc1]. apply IH; [exact Hwf1 | exact (Hc1 eq_refl)].
Qed.

Lemma putsp_loop_even fuel : forall address i m1 m2,
  wf m1 -> wf m2 -> stdout m1 = stdout m2 ->
  (forall k, 0 <= k ->
     mem_val m1 (add16 address (i + 2 * k)) =
     mem_val m2 (add16 address (i + 2 * k))) ->
  fault_of (putsp_loop fuel address i m1) =
    fault_of (putsp_loop fuel address i m2) /\
  stdout (final (putsp_loop fuel address i m1)) =
    stdout (final (putsp_loop fuel address i m2)).
Proof.
  induction fuel as [| fuel IH]; intros address i m1 m2 Hw1 Hw2 Hout Hmem.
  - cbn [putsp_loop]. split; [reflexivity | exact Hout].
  - pose proof (Hmem 0 ltac:(lia)) as H0.
    replace (i + 2 * 0) with i in H0 by lia.
    pose proof (mem_val_lookup m1 _ Hw1 (add16_word address i)) as Hl1.
    pose proof (mem_val_lookup m2 _ Hw2 (add16_word address i)) as Hl2.
    rewrite <- H0 in Hl2. set (w := mem_val m1 (add16 address i)) in *.
    destruct (Z.eq_dec w 0) as [Hz | Hnz].
    + cbn [putsp_loop]. unfold bind.
      rewrite (get_mem_lookup m1 _ w Hw1 (add16_word _ _) Hl1).
      rewrite (get_mem_lookup m2 _ w Hw2 (add16_word _ _) Hl2).
      rewrite Hz. split; [reflexivity | exact Hout].
    + rewrite (putsp_loop_skips fuel address i m1 w Hw1 Hl1 Hnz).
      rewrite (putsp_loop_skips fuel address i m2 w Hw2 Hl2 Hnz).
      apply IH.
      * apply wf_with_stdout. exact Hw1.
      * apply wf_with_stdout. exact Hw2.
      * cbn [stdout with_stdout]. rewrite Hout. reflexivity.
      * intros k Hk. rewrite add16_step2.
        change (mem_val m1 (add16 address (i + 2 * (1 + k))) =
                mem_val m2 (add16 address (i + 2 * (1 + k)))).
        apply Hmem. lia.
Qed.

(** X25. TRAP PUTSP looks only at every second word from [R0]: two states
    with the same registers and output whose memories agree on the words
    at [R0], [R0 + 2], [R0 + 4], ... (modulo [2^16]) give the same output
    and the same outcome, whatever the words in between hold. *)
Theorem TRAP_PUTSP_every_second_word (fuel : nat) (instr : Z) m1 m2 :
  wf m1 -> wf m2 ->
  Z.shiftr instr 12 = OP_TRAP -> Z.land instr 0xFF = TRAP_PUTSP ->
  reg m1 = reg m2 -> stdout m1 = stdout m2 ->
  (forall k, 0 <= k ->
     mem_val m1 (add16 (reg_val m1 R_R0) (2 * k)) =
     mem_val m2 (add16 (reg_val m1 R_R0) (2 * k))) ->
  fault_of (execute fuel instr m1) = fault_of (execute fuel instr m2) /\
  stdout (final (execute fuel instr m1)) =
    stdout (final (execute fuel instr m2)).
Proof.
  intros Hw1 Hw2 Hop Hv Hreg Hout Hmem.
  rewrite (execute_TRAP fuel instr m1 Hw1 Hop), (execute_TRAP fuel instr m2 Hw2 Hop).
  cbv zeta. rewrite Hv.
  change (fault_of (trap_PUTSP fuel (reg_set R_R7 (reg_val m1 R_PC) m1)) =
          fault_of (trap_PUTSP fuel (reg_set R_R7 (reg_val m2 R_PC) m2)) /\
          stdout (final (trap_PUTSP fuel (reg_set R_R7 (reg_val m1 R_PC) m1))) =
          stdout (final (trap_PUTSP fuel (reg_set R_R7 (reg_val m2 R_PC) m2)))).
  assert (Hr0 : reg_val m2 R_R0 = reg_val m1 R_R0)
    by (unfold reg_val; rewrite Hreg; reflexivity).
  unfold trap_PUTSP.
  rewrite !bind_get_reg by (exact r0_count || (apply wf_entered; assumption)).
  rewrite !entered_R0, Hr0.
  apply putsp_loop_even.
  - apply wf_entered. exact Hw1.
  - apply wf_entered. exact Hw2.
  - exact Hout.
  - intros k Hk. rewrite Z.add_0_l. apply (Hmem k Hk).
Qed.

End Loop.

(** ** The loader and the command line *)

Section LoaderFacts.

Context {H : Type} `{HostOps : Host H}.
Implicit Types (m : Machine H).

(** X27. A path that cannot be opened, an empty file, a file of one byte
    and a file that holds the origin and no data word all make
    [readImage] return false, with no cell of memory written. *)
Theorem readImage_failures path m :
  os_Open (host m) path = None \/
  (exists file, os_Open (host m) path = Some file /\ (length file <= 2)%nat) ->
  readImage path m = Ok false (with_opened (opened m ++ [path]) m).
Proof.
  intros [Hno | [file [Hopen Hlen]]]; unfold readImage; cbn [host with_opened].
  - rewrite Hno. reflexivity.
  - rewrite Hopen.
    destruct file as [| b1 [| b2 [| b3 rest]]]; [reflexivity .. |].
    cbn [length] in Hlen. lia.
Qed.

(** [readImage] on any file: it returns, writes to memory only, and keeps
    the state well formed. *)
Lemma readImage_total path m :
  wf m ->
  exists b mem',
    readImage path m =
      Ok b (with_memory mem' (with_opened (opened m ++ [path]) m)) /\
    wf (with_memory mem' (with_opened (opened m ++ [path]) m)).
Proof.
  intros Hwf.
  set (m0 := with_opened (opened m ++ [path]) m).
  assert (Hwf0 : wf m0) by (destruct Hwf; split; assumption).
  assert (Hsame : with_memory (memory m) m0 = m0) by reflexivity.
  assert (Hfalse : exists b mem',
            Ok (H := H) false m0 = Ok b (with_memory mem' m0) /\
            wf (with_memory mem' m0)).
  { exists false, (memory m). rewrite Hsame. split; [reflexivity | exact Hwf0]. }
  unfold readImage. fold m0. cbn [host with_opened].
  change (host m0) with (host m).
  destruct (os_Open (host m) path) as [file |]; [| exact Hfalse].
  destruct file as [| b1 [| b2 data]]; [exact Hfalse | exact Hfalse |].
  rewrite file_Read_header. cbn [length].
  destruct data as [| d rest]; [exact Hfalse |].
  rewrite (file_Read_all (d :: rest)) by discriminate.
  pose proof (be16_word b1 b2) as Ho. unfold word in Ho.
  destruct (readImage_loop_run (Z.to_nat MaxUint16) (be16 b1 b2)
              ((d :: rest) ++ replicate 2 x00) m0 Hwf0)
    as [mem' [Hrun [Hwf' _]]];
    [unfold MaxUint16; lia | unfold MaxUint16; lia |].
  exists true, mem'. unfold bind. rewrite Hrun. split; [reflexivity | exact Hwf'].
Qed.

(** The loading loop opens the arguments in order and stops at the first
    that fails. *)
Lemma load_images_run args : forall m,
  wf m ->
  match load_images args m with
  | Ok _ m' =>
      wf m' /\ reg m' = reg m /\ stdout m' = stdout m /\
      opened m' = opened m ++ args
  | Stop f m' =>
      f = Exit 1 /\
      exists done a rest,
        args = done ++ a :: rest /\
        opened m' = opened m ++ done ++ [a] /\
        stdout m' = stdout m ++ bytes_of_string ("failed to load image: " ++ a)
  end.
Proof.
  induction args as [| a args IH]; intros m Hwf; cbn [load_images].
  - unfold ret. rewrite app_nil_r. auto.
  - destruct (readImage_total a m Hwf) as [b [mem' [Hrun Hwf']]].
    rewrite (bind_ok _ _ m _ _ Hrun).
    destruct b; cbn [negb].
    + specialize (IH _ Hwf').
      destruct (load_images args _) as [[] m' | f m'].
      * destruct IH as [Hw [Hr [Ho Hop]]].
        cbn [reg stdout opened with_memory with_opened] in Hr, Ho, Hop.
        rewrite Hr, Ho, Hop, <- app_assoc. auto.
      * destruct IH as [Hf [done [a' [rest [Ha [Hop Hout]]]]]].
        split; [exact Hf |].
        exists (a :: done), a', rest.
        cbn [reg stdout opened with_memory with_opened] in Hop, Hout.
        rewrite Ha, Hop, Hout, <- !app_assoc. auto.
    + unfold bind, print, write_bytes, stop.
      split; [reflexivity |]. exists [], a, args. auto.
Qed.

(** X29. With two or more elements in [os.Args] and a well-formed initial
    state, [main] ends in one of three ways: it returns from the loop in a
    well-formed state with a flag in [COND] and [running] cleared; it
    exits with code 1 after naming the first element of [os.Args] that
    failed to load, having opened the elements up to that one in order,
    starting with the program's own name; or it stops on a failed read of
    the host (or on the fuel).  It never exits with code 2, and never
    panics on an index, a shift or a bad opcode. *)
Theorem main_outcomes (args : list string) n fuel m :
  wf m -> (2 <= length args)%nat ->
  main_outcome args m (main args n fuel m).
Proof.
  intros Hwf Hlen. unfold main.
  destruct (Z.ltb_spec (Z.of_nat (length args)) 2) as [? | _]; [lia |].
  rewrite (bind_ok _ _ m tt m eq_refl).
  pose proof (load_images_run args m Hwf) as Hload.
  unfold bind at 1.
  destruct (load_images args m) as [[] m1 | f m1].
  - destruct Hload as [Hw1 _].
    assert (Hc : word FL_ZRO) by (unfold word; cbv; intuition discriminate).
    assert (Hp : word (wrap16 12288)) by apply wrap16_word.
    rewrite bind_set_reg by (exact Hw1 || exact cond_count).
    cbv zeta.
    pose proof (wf_reg_set m1 R_COND _ Hw1 Hc) as Hw2.
    rewrite bind_set_reg by (exact Hw2 || exact pc_count).
    pose proof (wf_reg_set _ R_PC _ Hw2 Hp) as Hw3.
    unfold bind at 1.
    set (m4 := with_running true _).
    assert (Hw4 : wf m4) by (apply wf_with_running; exact Hw3).
    assert (Hc4 : cond_ok m4).
    { right. left. unfold m4. cbn [reg with_running reg_set with_reg].
      rewrite list_lookup_insert_ne by discriminate.
      apply list_lookup_insert_eq.
      pose proof (wf_reg_len m1 Hw1) as Hl. unfold R_COND, R_COUNT in *. lia. }
    pose proof (run_Inv n fuel m4 Hw4 Hc4) as Hr.
    unfold main_outcome. destruct (run n fuel m4) as [[] m' | f m'];
      [exact Hr | right; exact Hr].
  - unfold main_outcome. left. exact Hload.
Qed.

End LoaderFacts.

(** ** Instances of the further properties *)

Lemma wf_key_machine : wf key_machine.
Proof. apply wf_started. repeat constructor; unfold word; lia. Qed.


Lemma wf_hello_packed : wf hello_packed.
Proof.
  apply wf_regs; [apply wf_started | reflexivity |];
    repeat constructor; unfold word; cbv; intuition discriminate.
Qed.

Lemma wf_hello_other : wf hello_other.
Proof. apply wf_mem_set; [exact wf_hello_packed | unfold word; lia]. Qed.

Lemma wf_loaded_before : wf loaded_before.
Proof.
  apply (wf_with_memory (boot two_images) _ 0xBEEF (wf_boot two_images)).
  unfold word. lia.
Qed.

Lemma signExtend_value_witness :
  1 <= 5 <= 16 /\ signExtend 0x1F 5 = Some (signed_value 5 0x1F mod 2 ^ 16).
Proof.
  assert (Hn : 1 <= 5 <= 16) by lia.
  exact (conj Hn (signExtend_value 0x1F 5 Hn)).
Defined.

Lemma signExtend_wide_witness :
  word 0x8001 /\ 16 <= 20 /\ signExtend 0x8001 20 = Some 0x8001.
Proof.
  assert (Hx : word 0x8001) by (unfold word; lia).
  assert (Hn : 16 <= 20) by lia.
  exact (conj Hx (conj Hn (signExtend_wide 0x8001 20 Hx Hn))).
Defined.

Lemma signExtend_panics_witness : 0 <= 0 /\ signExtend 0x1F 0 = None.
Proof.
  assert (Hn : 0 <= 0) by lia.
  exact (conj Hn (signExtend_panics 0x1F 0 Hn)).
Defined.

Lemma AND_run_witness :
  wf add_program /\ Z.shiftr 0x5020 12 = OP_AND /\
  reg_val (final (execute 0 0x5020 add_program)) R_COND = FL_ZRO.
Proof.
  split; [exact wf_add_program |]. split; [reflexivity |].
  rewrite (AND_run 0 0x5020 add_program wf_add_program eq_refl). reflexivity.
Defined.

Lemma NOT_run_witness :
  wf add_program /\ Z.shiftr 0x903F 12 = OP_NOT /\
  reg_val (final (execute 0 0x903F add_program)) R_R0 = 0xFFFF.
Proof.
  split; [exact wf_add_program |]. split; [reflexivity |].
  rewrite (NOT_run 0 0x903F add_program wf_add_program eq_refl). reflexivity.
Defined.

Lemma LEA_run_witness :
  wf add_program /\ Z.shiftr 0xE1FF 12 = OP_LEA /\
  reg_val (final (execute 0 0xE1FF add_program)) R_R0 = 0x2FFF.
Proof.
  split; [exact wf_add_program |]. split; [reflexivity |].
  rewrite (LEA_run 0 0xE1FF add_program wf_add_program eq_refl). reflexivity.
Defined.

Lemma BR_run_witness :
  wf add_program /\ Z.shiftr 0x0403 12 = OP_BR /\
  reg_val (final (execute 0 0x0403 add_program)) R_PC = 0x3003.
Proof.
  split; [exact wf_add_program |]. split; [reflexivity |].
  rewrite (proj1 (BR_run 0 0x0403 add_program wf_add_program eq_refl)).
  reflexivity.
Defined.

Lemma JMP_run_witness :
  wf hi_machine /\ Z.shiftr 0xC000 12 = OP_JMP /\
  reg_val (final (execute 0 0xC000 hi_machine)) R_PC = 0x4000.
Proof.
  split; [exact wf_hi_machine |]. split; [reflexivity |].
  rewrite (JMP_run 0 0xC000 hi_machine wf_hi_machine eq_refl). reflexivity.
Defined.

Lemma JSR_run_witness :
  wf add_program /\ Z.shiftr 0x41C0 12 = OP_JSR /\
  reg_val (final (execute 0 0x41C0 add_program)) R_PC = 0x3000 /\
  reg_val (final (execute 0 0x41C0 add_program)) R_R7 = 0x3000.
Proof.
  split; [exact wf_add_program |]. split; [reflexivity |].
  rewrite (JSR_run 0 0x41C0 add_program wf_add_program eq_refl).
  split; reflexivity.
Defined.

Lemma LD_run_witness :
  wf add_program /\ Z.shiftr 0x2000 12 = OP_LD /\
  rel_addr (reg_val add_program R_PC) 9 0x2000 <> MR_KBSR /\
  reg_val (final (execute 0 0x2000 add_program)) R_R0 = 0x1023.
Proof.
  assert (Hne : rel_addr (reg_val add_program R_PC) 9 0x2000 <> MR_KBSR)
    by (vm_compute; discriminate).
  split; [exact wf_add_program |]. split; [reflexivity |].
  split; [exact Hne |].
  refine (eq_trans (f_equal (fun r => reg_val (final r) R_R0)
            (LD_run 0 0x2000 add_program wf_add_program eq_refl Hne)) _).
  vm_compute. reflexivity.
Defined.

Lemma LDR_run_witness :
  wf hi_machine /\ Z.shiftr 0x6201 12 = OP_LDR /\
  rel_addr (reg_val hi_machine (Z.land (Z.shiftr 0x6201 6) 0x7)) 6 0x6201
    <> MR_KBSR /\
  reg_val (final (execute 0 0x6201 hi_machine)) R_R0 = 0x4000 /\
  reg_val (final (execute 0 0x6201 hi_machine)) 1 = 0x69.
Proof.
  assert (Hne : rel_addr (reg_val hi_machine (Z.land (Z.shiftr 0x6201 6) 0x7))
                  6 0x6201 <> MR_KBSR) by (vm_compute; discriminate).
  split; [exact wf_hi_machine |]. split; [reflexivity |].
  split; [exact Hne |].
  split.
  - refine (eq_trans (f_equal (fun r => reg_val (final r) R_R0)
              (LDR_run 0 0x6201 hi_machine wf_hi_machine eq_refl Hne)) _).
    vm_compute. reflexivity.
  - refine (eq_trans (f_equal (fun r => reg_val (final r) 1)
              (LDR_run 0 0x6201 hi_machine wf_hi_machine eq_refl Hne)) _).
    vm_compute. reflexivity.
Defined.

Lemma LDI_run_witness :
  wf add_program /\ Z.shiftr 0xA001 12 = OP_LDI /\
  rel_addr (reg_val add_program R_PC) 9 0xA001 <> MR_KBSR /\
  mem_val add_program (rel_addr (reg_val add_program R_PC) 9 0xA001)
    <> MR_KBSR /\
  reg_val (final (execute 0 0xA001 add_program)) R_R0 = 0.
Proof.
  assert (Hne : rel_addr (reg_val add_program R_PC) 9 0xA001 <> MR_KBSR)
    by (vm_compute; discriminate).
  assert (Hne2 : mem_val add_program
                   (rel_addr (reg_val add_program R_PC) 9 0xA001) <> MR_KBSR)
    by (vm_compute; discriminate).
  split; [exact wf_add_program |]. split; [reflexivity |].
  split; [exact Hne |]. split; [exact Hne2 |].
  refine (eq_trans (f_equal (fun r => reg_val (final r) R_R0)
            (LDI_run 0 0xA001 add_program wf_add_program eq_refl Hne Hne2)) _).
  vm_compute. reflexivity.
Defined.

Lemma stores_run_witness :
  wf hi_machine /\
  mem_val (final (execute 0 0x3005 hi_machine)) 0x3006 = 0x4000.
Proof.
  split; [exact wf_hi_machine |].
  refine (eq_trans (f_equal (fun r => mem_val (final r) 0x3006)
            (proj1 (stores_run 0 0x3005 hi_machine wf_hi_machine) eq_refl)) _).
  vm_compute. reflexivity.
Defined.

Lemma STR_then_LDR_witness :
  wf hi_machine /\
  Z.shiftr 0x7042 12 = OP_STR /\ Z.shiftr 0x6442 12 = OP_LDR /\
  Z.land (Z.shiftr 0x7042 6) 0x7 = Z.land (Z.shiftr 0x6442 6) 0x7 /\
  signed_value 6 0x7042 = signed_value 6 0x6442 /\
  rel_addr (reg_val hi_machine (Z.land (Z.shiftr 0x7042 6) 0x7)) 6 0x7042
    <> MR_KBSR /\
  exists m1,
    execute 0 0x7042 hi_machine = Ok tt m1 /\
    execute 0 0x6442 m1 =
      Ok tt (loaded (Z.land (Z.shiftr 0x6442 9) 0x7)
               (reg_val hi_machine (Z.land (Z.shiftr 0x7042 9) 0x7)) m1).
Proof.
  assert (Hne : rel_addr (reg_val hi_machine (Z.land (Z.shiftr 0x7042 6) 0x7))
                  6 0x7042 <> MR_KBSR) by (vm_compute; discriminate).
  split; [exact wf_hi_machine |].
  do 4 (split; [reflexivity |]). split; [exact Hne |].
  exact (STR_then_LDR 0 0x7042 0x6442 hi_machine wf_hi_machine
           eq_refl eq_refl eq_refl eq_refl Hne).
Defined.

Lemma memWrite_other_cells_witness :
  wf hi_machine /\ word 0x4000 /\ word 0x4001 /\ word 0x7A /\
  0x4001 <> 0x4000 /\ 0x4001 <> MR_KBSR /\
  exists m', memWrite 0x4000 0x7A hi_machine = Ok tt m' /\
             memRead 0x4001 m' = Ok (mem_val hi_machine 0x4001) m' /\
             memRead 0x4001 hi_machine =
               Ok (mem_val hi_machine 0x4001) hi_machine.
Proof.
  assert (Ha : word 0x4000) by (unfold word; lia).
  assert (Hb : word 0x4001) by (unfold word; lia).
  assert (Hv : word 0x7A) by (unfold word; lia).
  assert (Hne : 0x4001 <> 0x4000) by discriminate.
  assert (Hk : 0x4001 <> MR_KBSR) by discriminate.
  split; [exact wf_hi_machine |].
  split; [exact Ha |]. split; [exact Hb |]. split; [exact Hv |].
  split; [exact Hne |]. split; [exact Hk |].
  exact (memWrite_other_cells hi_machine 0x4000 0x4001 0x7A wf_hi_machine
           Ha Hb Hv Hne Hk).
Defined.

Lemma memRead_KBSR_ready_witness :
  wf key_machine /\
  stdin_Peek1 (host key_machine) = (Some x41, key_pending) /\
  stdin_ReadByte key_pending = (Some x41, no_input) /\
  exists m', memRead MR_KBSR key_machine = Ok 0x8000 m' /\
             memRead MR_KBDR m' = Ok (Z_of_byte x41) m' /\
             host m' = no_input /\ reg m' = reg key_machine /\
             stdout m' = stdout key_machine.
Proof.
  split; [exact wf_key_machine |]. do 2 (split; [reflexivity |]).
  exact (memRead_KBSR_ready key_machine x41 x41 key_pending no_input
           wf_key_machine eq_refl eq_refl).
Defined.

Lemma memRead_KBSR_idle_witness :
  wf add_program /\
  stdin_Peek1 (host add_program) = (None, no_input) /\
  exists m', memRead MR_KBSR add_program = Ok 0 m' /\
             mem_val m' MR_KBDR = mem_val add_program MR_KBDR /\
             host m' = no_input /\ reg m' = reg add_program /\
             stdout m' = stdout add_program.
Proof.
  split; [exact wf_add_program |]. split; [reflexivity |].
  exact (memRead_KBSR_idle add_program no_input wf_add_program eq_refl).
Defined.

Lemma fetch_run_witness :
  wf add_program /\ reg_val add_program R_PC <> MR_KBSR /\
  returned (fetch add_program) = Some 0x1023 /\
  reg_val (final (fetch add_program)) R_PC = 0x3001.
Proof.
  assert (Hne : reg_val add_program R_PC <> MR_KBSR) by discriminate.
  split; [exact wf_add_program |]. split; [exact Hne |]. split.
  - refine (eq_trans (f_equal returned
              (proj1 (fetch_run add_program wf_add_program Hne))) _).
    vm_compute. reflexivity.
  - refine (eq_trans (f_equal (fun r => reg_val (final r) R_PC)
              (proj1 (fetch_run add_program wf_add_program Hne))) _).
    vm_compute. reflexivity.
Defined.

Lemma TRAP_unknown_vector_witness :
  wf add_program /\ Z.shiftr 0xF0FF 12 = OP_TRAP /\
  (Z.land 0xF0FF 0xFF < TRAP_GETC \/ TRAP_HALT < Z.land 0xF0FF 0xFF) /\
  execute 0 0xF0FF add_program =
    Ok tt (reg_set R_R7 (reg_val add_program R_PC) add_program).
Proof.
  assert (Hv : Z.land 0xF0FF 0xFF < TRAP_GETC \/ TRAP_HALT < Z.land 0xF0FF 0xFF)
    by (right; reflexivity).
  split; [exact wf_add_program |]. split; [reflexivity |]. split; [exact Hv |].
  exact (TRAP_unknown_vector 0 0xF0FF add_program wf_add_program eq_refl Hv).
Defined.

Lemma TRAP_OUT_run_witness :
  wf hi_machine /\ Z.shiftr 0xF021 12 = OP_TRAP /\
  Z.land 0xF021 0xFF = TRAP_OUT /\
  stdout (final (execute 0 0xF021 hi_machine)) = [0xE4; 0x80; 0x80].
Proof.
  split; [exact wf_hi_machine |]. do 2 (split; [reflexivity |]).
  refine (eq_trans (f_equal (fun r => stdout (final r))
            (proj1 (TRAP_OUT_run 0 0xF021 hi_machine wf_hi_machine
                      eq_refl eq_refl))) _).
  vm_compute. reflexivity.
Defined.

Lemma TRAP_GETC_run_witness :
  wf key_machine /\ Z.shiftr 0xF020 12 = OP_TRAP /\
  Z.land 0xF020 0xFF = TRAP_GETC /\
  stdin_ReadRune (host key_machine) = (Some 0x41, no_input) /\
  reg_val (final (execute 0 0xF020 key_machine)) R_R0 = 0x41 /\
  reg_val (final (execute 0 0xF020 key_machine)) R_COND = FL_POS.
Proof.
  split; [exact wf_key_machine |]. do 3 (split; [reflexivity |]). split.
  - refine (eq_trans (f_equal (fun r => reg_val (final r) R_R0)
              (TRAP_GETC_run 0 0xF020 key_machine (Some 0x41) no_input
                 wf_key_machine eq_refl eq_refl eq_refl)) _).
    vm_compute. reflexivity.
  - refine (eq_trans (f_equal (fun r => reg_val (final r) R_COND)
              (TRAP_GETC_run 0 0xF020 key_machine (Some 0x41) no_input
                 wf_key_machine eq_refl eq_refl eq_refl)) _).
    vm_compute. reflexivity.
Defined.

Lemma TRAP_IN_run_witness :
  wf add_program /\ Z.shiftr 0xF023 12 = OP_TRAP /\
  Z.land 0xF023 0xFF = TRAP_IN /\
  stdin_ReadRune (host add_program) = (None, no_input) /\
  fault_of (execute 0 0xF023 add_program) =
    Some (Panic "tried reading entered char, failed") /\
  stdout (final (execute 0 0xF023 add_program)) =
    bytes_of_string "Enter character: " ++ [10].
Proof.
  split; [exact wf_add_program |]. do 3 (split; [reflexivity |]). split.
  - refine (eq_trans (f_equal fault_of
              (TRAP_IN_run 0 0xF023 add_program None no_input
                 wf_add_program eq_refl eq_refl eq_refl)) _).
    reflexivity.
  - refine (eq_trans (f_equal (fun r => stdout (final r))
              (TRAP_IN_run 0 0xF023 add_program None no_input
                 wf_add_program eq_refl eq_refl eq_refl)) _).
    reflexivity.
Defined.

Lemma hi_nonzero_words j :
  (j < 3)%nat ->
  mem_val hi_machine (add16 (reg_val hi_machine R_R0) (Z.of_nat j)) <> 0.
Proof.
  intros Hj. destruct j as [| [| [| j]]]; [| | | lia];
    vm_compute; discriminate.
Qed.

Lemma TRAP_PUTS_run_witness :
  wf hi_machine /\ Z.shiftr 0xF022 12 = OP_TRAP /\
  Z.land 0xF022 0xFF = TRAP_PUTS /\ (3 < 4)%nat /\
  mem_val hi_machine (add16 (reg_val hi_machine R_R0) (Z.of_nat 3)) = 0 /\
  stdout (final (execute 4 0xF022 hi_machine)) = [0x48; 0x69; 0x21; 0].
Proof.
  assert (Hz : mem_val hi_machine
                 (add16 (reg_val hi_machine R_R0) (Z.of_nat 3)) = 0)
    by (vm_compute; reflexivity).
  assert (Hk : (3 < 4)%nat) by lia.
  split; [exact wf_hi_machine |]. do 2 (split; [reflexivity |]).
  split; [exact Hk |]. split; [exact Hz |].
  refine (eq_trans (f_equal (fun r => stdout (final r))
            (TRAP_PUTS_run 4 0xF022 hi_machine 3 wf_hi_machine eq_refl eq_refl
               Hk hi_nonzero_words Hz)) _).
  vm_compute. reflexivity.
Defined.


Lemma hello_even_words k :
  0 <= k ->
  mem_val hello_packed (add16 (reg_val hello_packed R_R0) (2 * k)) =
  mem_val hello_other (add16 (reg_val hello_packed R_R0) (2 * k)).
Proof.
  intros Hk. symmetry. unfold hello_other.
  apply mem_val_mem_set_ne; [unfold word; lia | apply add16_word |].
  change (reg_val hello_packed R_R0) with 0x4000.
  unfold add16, wrap16. intros Heq.
  pose proof (Z.div_mod (16384 + 2 * k) 65536 ltac:(lia)) as Hd.
  rewrite <- Heq in Hd. lia.
Qed.

Lemma hello_same_regs : reg hello_packed = reg hello_other.
Proof. vm_compute. reflexivity. Qed.

Lemma hello_same_output : stdout hello_packed = stdout hello_other.
Proof. vm_compute. reflexivity. Qed.

Lemma TRAP_PUTSP_every_second_word_witness :
  wf hello_packed /\ wf hello_other /\
  Z.shiftr 0xF024 12 = OP_TRAP /\ Z.land 0xF024 0xFF = TRAP_PUTSP /\
  reg hello_packed = reg hello_other /\
  stdout hello_packed = stdout hello_other /\
  fault_of (execute 9 0xF024 hello_packed) =
    fault_of (execute 9 0xF024 hello_other) /\
  stdout (final (execute 9 0xF024 hello_packed)) =
    stdout (final (execute 9 0xF024 hello_other)).
Proof.
  split; [exact wf_hello_packed |]. split; [exact wf_hello_other |].
  do 2 (split; [reflexivity |]).
  split; [exact hello_same_regs |]. split; [exact hello_same_output |].
  exact (TRAP_PUTSP_every_second_word 9 0xF024 hello_packed hello_other
           wf_hello_packed wf_hello_other eq_refl eq_refl
           hello_same_regs hello_same_output hello_even_words).
Defined.

Lemma readImage_run_witness :
  wf loaded_before /\
  os_Open (host loaded_before) "high.obj" =
    Some (image_bytes (xff, xf0) [(xab, xcd)]) /\
  returned (readImage "high.obj" loaded_before) = Some true.
Proof.
  assert (Hopen : os_Open (host loaded_before) "high.obj" =
                  Some (image_bytes (xff, xf0) [(xab, xcd)]))
    by (vm_compute; reflexivity).
  split; [exact wf_loaded_before |]. split; [exact Hopen |].
  destruct (readImage_run "high.obj" loaded_before xff xf0 (xab, xcd) []
              wf_loaded_before Hopen) as [mem' [Hrun _]].
  exact (eq_trans (f_equal returned Hrun) eq_refl).
Defined.

Lemma readImage_failures_witness :
  (os_Open (host (boot prog_dir)) "lc3" = None \/
   exists file, os_Open (host (boot prog_dir)) "lc3" = Some file /\
                (length file <= 2)%nat) /\
  readImage "lc3" (boot prog_dir) =
    Ok false (with_opened (opened (boot prog_dir) ++ ["lc3"%string])
                (boot prog_dir)).
Proof.
  assert (Hno : os_Open (host (boot prog_dir)) "lc3" = None \/
                exists file, os_Open (host (boot prog_dir)) "lc3" = Some file /\
                             (length file <= 2)%nat) by (left; reflexivity).
  exact (conj Hno (readImage_failures "lc3" (boot prog_dir) Hno)).
Defined.

Lemma main_usage_witness :
  (length ["lc3"%string] < 2)%nat /\
  main ["lc3"%string] 1 1 (boot prog_dir) =
    Stop (Exit 2)
      (with_stdout
         (stdout (boot prog_dir) ++
          bytes_of_string "lc3 [image-file1] ..." ++ [10]) (boot prog_dir)).
Proof.
  assert (Hl : (length ["lc3"%string] < 2)%nat) by (cbn [length]; lia).
  exact (conj Hl (main_usage ["lc3"%string] 1 1 (boot prog_dir) Hl)).
Defined.

Lemma main_outcomes_witness :
  wf (boot prog_dir) /\
  (2 <= length ["lc3"%string; "prog.obj"%string])%nat /\
  main_outcome ["lc3"%string; "prog.obj"%string] (boot prog_dir)
    (main ["lc3"%string; "prog.obj"%string] 1 1 (boot prog_dir)).
Proof.
  assert (Hl : (2 <= length ["lc3"%string; "prog.obj"%string])%nat)
    by (cbn [length]; lia).
  split; [exact (wf_boot prog_dir) |]. split; [exact Hl |].
  exact (main_outcomes ["lc3"%string; "prog.obj"%string] 1 1 (boot prog_dir)
           (wf_boot prog_dir) Hl).
Defined.
